(** * Image Enhancer SDK: a shallow embedding of [image_enhancer_sdk.py]

    The Python class [ImageEnhancerSDK] reads image files, base64-encodes
    them, POSTs them to [/api/enhance], [/api/classify] and [/api/admin],
    and writes returned images back to disk.  This development embeds
    - the payload codec (data URIs over base64),
    - the constructor ([rstrip] of the base URL, admin-key fallback),
    - the three mediator operations with their [try]/[except] blocks,
    - [save_enhanced_image], [batch_enhance] and the batch tally of [main],
    as functions in a state-and-exception monad over a trace of effects, and
    proves the properties the specification states about them. *)

From Stdlib Require Import ZArith NArith String Ascii List Lia DecimalString.
From Stdlib Require Import Init.Byte.
From stdpp Require Import base option gmap strings list.

Local Set Warnings "-register-all".
Local Open Scope Z_scope.

(** ** Python strings and bytes *)

(** [str(n)] for an [int]: decimal digits, with a leading minus sign. *)
Definition str_of_Z (z : Z) : string := NilZero.string_of_int (Z.to_int z).

(** [s.startswith(p)]. *)
Definition startswith (p s : string) : bool := String.prefix p s.

(** [needle in hay] on strings: [needle] occurs as a contiguous substring. *)
Fixpoint contains (needle hay : string) : bool :=
  String.prefix needle hay ||
  match hay with
  | EmptyString => false
  | String _ hay' => contains needle hay'
  end.

(** [s.rstrip(ch)] for a one-character argument: drop every trailing [ch]. *)
Fixpoint rstrip (ch : ascii) (s : string) : string :=
  match s with
  | EmptyString => EmptyString
  | String c r =>
      match rstrip ch r with
      | EmptyString => if Ascii.eqb c ch then EmptyString else String c EmptyString
      | r' => String c r'
      end
  end.

(** [s.endswith(ch)] for a one-character argument. *)
Fixpoint endswith_char (ch : ascii) (s : string) : bool :=
  match s with
  | EmptyString => false
  | String c EmptyString => Ascii.eqb c ch
  | String _ r => endswith_char ch r
  end.

(** [ch * k]. *)
Fixpoint repeat_char (ch : ascii) (k : nat) : string :=
  match k with
  | O => EmptyString
  | S k' => String ch (repeat_char ch k')
  end.

(** [s.split(sep, 1)] followed by unpacking into two names: [None] stands for
    the [ValueError] that the unpacking raises when [sep] does not occur. *)
Fixpoint split_first (sep : ascii) (s : string) : option (string * string) :=
  match s with
  | EmptyString => None
  | String c r =>
      if Ascii.eqb c sep then Some (EmptyString, r)
      else match split_first sep r with
           | Some (h, d) => Some (String c h, d)
           | None => None
           end
  end.

(** ** Base64, as [base64.b64encode] and [base64.b64decode] compute it *)

Module Base64.

Definition alphabet : string :=
  "ABCDEFGHIJKLMNOPQRSTUVWXYZabcdefghijklmnopqrstuvwxyz0123456789+/".

Definition pad : ascii := "="%char.

(** The encoding table: a 6-bit value to its character. *)
Definition table_b2a (v : N) : ascii :=
  match String.get (N.to_nat v) alphabet with
  | Some c => c
  | None => pad
  end.

(** The decoding table: a character to its 6-bit value, if it has one. *)
Definition table_a2b (c : ascii) : option N :=
  let n := N_of_ascii c in
  (if (65 <=? n) && (n <=? 90) then Some (n - 65)
   else if (97 <=? n) && (n <=? 122) then Some (n - 71)
   else if (48 <=? n) && (n <=? 57) then Some (n + 4)
   else if n =? 43 then Some 62
   else if n =? 47 then Some 63
   else None)%N.

(** Storing into an [unsigned char] keeps the low eight bits. *)
Definition byte_of_N (n : N) : byte :=
  match Byte.of_N (n mod 256) with
  | Some b => b
  | None => x00
  end.

(** The four 6-bit groups of three input bytes [x], [y], [z]. *)
Definition sextet0 (x : N) : N := N.shiftr x 2.
Definition sextet1 (x y : N) : N :=
  N.lor (N.shiftl (N.land x 3) 4) (N.shiftr y 4).
Definition sextet2 (y z : N) : N :=
  N.lor (N.shiftl (N.land y 15) 2) (N.shiftr z 6).
Definition sextet3 (z : N) : N := N.land z 63.

(** [b64encode]: three bytes become four characters; a final group of one
    or two bytes is zero-filled and padded with [=]. *)
Fixpoint b64encode (bs : list byte) : string :=
  match bs with
  | [] => EmptyString
  | [a] =>
      let x := Byte.to_N a in
      String (table_b2a (sextet0 x))
        (String (table_b2a (sextet1 x 0))
           (String pad (String pad EmptyString)))
  | [a; b] =>
      let x := Byte.to_N a in
      let y := Byte.to_N b in
      String (table_b2a (sextet0 x))
        (String (table_b2a (sextet1 x y))
           (String (table_b2a (sextet2 y 0))
              (String pad EmptyString)))
  | a :: b :: c :: rest =>
      let x := Byte.to_N a in
      let y := Byte.to_N b in
      let z := Byte.to_N c in
      String (table_b2a (sextet0 x))
        (String (table_b2a (sextet1 x y))
           (String (table_b2a (sextet2 y z))
              (String (table_b2a (sextet3 z)) (b64encode rest))))
  end.

(** The two errors of [binascii.a2b_base64] and, for a [str] argument, the
    [ValueError] of [base64.b64decode].  [InvalidLength n] is "number of
    data characters (n) cannot be 1 more than a multiple of 4". *)
Inductive decode_error :=
  | NotAscii
  | IncorrectPadding
  | InvalidLength (data_chars : nat).

(** Append a decoded byte to what the rest of the input decodes to. *)
Definition put_byte (b : byte) (r : decode_error + list byte)
    : decode_error + list byte :=
  match r with
  | inr bs => inr (b :: bs)
  | inl e => inl e
  end.

(** The non-strict decoding loop of [binascii.a2b_base64]: characters
    outside the alphabet are skipped, a sufficient run of [=] after at
    least two characters of a quad ends the input, and input that stops
    inside a quad is an error: an invalid length when it stops one
    character into a quad (reported with [written / 3 * 4 + 1], where
    [written] is the number of bytes decoded so far), incorrect padding
    otherwise. *)
Fixpoint a2b_base64 (written : nat) (quad_pos : nat) (leftchar : N)
    (pads : nat) (s : string) : decode_error + list byte :=
  match s with
  | EmptyString =>
      match quad_pos with
      | 0%nat => inr []
      | 1%nat => inl (InvalidLength (written / 3 * 4 + 1))
      | _ => inl IncorrectPadding
      end
  | String this_ch rest =>
      if Ascii.eqb this_ch pad then
        if Nat.leb 2 quad_pos then
          if Nat.leb 4 (quad_pos + S pads) then inr []
          else a2b_base64 written quad_pos leftchar (S pads) rest
        else a2b_base64 written quad_pos leftchar pads rest
      else
        match table_a2b this_ch with
        | None => a2b_base64 written quad_pos leftchar pads rest
        | Some v =>
            match quad_pos with
            | 0%nat => a2b_base64 written 1 v 0 rest
            | 1%nat =>
                put_byte (byte_of_N (N.lor (N.shiftl leftchar 2) (N.shiftr v 4)))
                  (a2b_base64 (S written) 2 (N.land v 15) 0 rest)
            | 2%nat =>
                put_byte (byte_of_N (N.lor (N.shiftl leftchar 4) (N.shiftr v 2)))
                  (a2b_base64 (S written) 3 (N.land v 3) 0 rest)
            | _ =>
                put_byte (byte_of_N (N.lor (N.shiftl leftchar 6) v))
                  (a2b_base64 (S written) 0 0 0 rest)
            end
        end
  end.

(** A [str] argument must be pure ASCII ([ValueError] otherwise). *)
Fixpoint is_ascii (s : string) : bool :=
  match s with
  | EmptyString => true
  | String c r => (N_of_ascii c <? 128)%N && is_ascii r
  end.

(** [base64.b64decode(s)] with the default [validate=False]. *)
Definition b64decode (s : string) : decode_error + list byte :=
  if is_ascii s then a2b_base64 0 0 0 0 s else inl NotAscii.

(** [str(e)] for the exception that [b64decode] raises. *)
Definition decode_error_str (e : decode_error) : string :=
  match e with
  | NotAscii => "string argument should contain only ASCII characters"
  | IncorrectPadding => "Incorrect padding"
  | InvalidLength n =>
      "Invalid base64-encoded string: number of data characters ("
        +:+ str_of_Z (Z.of_nat n)
        +:+ ") cannot be 1 more than a multiple of 4"
  end.

End Base64.

(** ** The payload codec *)

Definition data_uri_prefix : string := "data:image/jpeg;base64,".

(** Lines 57-58 (and 132-133): the data URI built from the bytes of a file. *)
Definition encode_data_url (image_bytes : list byte) : string :=
  data_uri_prefix +:+ Base64.b64encode image_bytes.

(** ** JSON values and Python exceptions *)

(** What [response.json()] can hold, and what goes into request payloads.
    A float is kept as its JSON text. *)
Inductive value : Type :=
  | VNone
  | VBool (b : bool)
  | VInt (z : Z)
  | VFloat (repr : string)
  | VStr (s : string)
  | VList (l : list value)
  | VDict (d : gmap string value).

Abbreviation Dict := (gmap string value).

(** [k in d] for a dict. *)
Definition has_key (k : string) (d : Dict) : bool :=
  match d !! k with
  | Some _ => true
  | None => false
  end.

(** [type(v).__name__]. *)
Definition type_name (v : value) : string :=
  match v with
  | VNone => "NoneType"
  | VBool _ => "bool"
  | VInt _ => "int"
  | VFloat _ => "float"
  | VStr _ => "str"
  | VList _ => "list"
  | VDict _ => "dict"
  end.

(** [v == k] for a string [k]. *)
Definition is_str (k : string) (v : value) : bool :=
  match v with
  | VStr s => String.eqb s k
  | _ => false
  end.

(** The exception classes that occur; all but the last two derive from
    [Exception], which is what the [except Exception] clauses catch. *)
Inductive exn_class :=
  | OSError
  | ConnectionError
  | Timeout
  | JSONDecodeError
  | ValueError
  | BinasciiError
  | TypeError
  | AttributeError
  | KeyError
  | KeyboardInterrupt
  | SystemExit.

Definition is_Exception (c : exn_class) : bool :=
  match c with
  | KeyboardInterrupt | SystemExit => false
  | _ => true
  end.

(** An exception instance: its class and [str(e)]. *)
Record exn := { exn_cls : exn_class; exn_str : string }.

(** [k in v], as in ['error' in result]: a key of a dict, an element of a
    list, a substring of a string; a [TypeError] for any other value. *)
Definition py_in (k : string) (v : value) : exn + bool :=
  match v with
  | VDict d => inr (has_key k d)
  | VList l => inr (existsb (is_str k) l)
  | VStr s => inr (contains k s)
  | _ =>
      inl {| exn_cls := TypeError;
             exn_str := "argument of type '" +:+ type_name v
                          +:+ "' is not iterable" |}
  end.

(** [v[k]], as in [result['enhancedImage']], for a string [k]. *)
Definition py_getitem (v : value) (k : string) : exn + value :=
  match v with
  | VDict d =>
      match d !! k with
      | Some x => inr x
      | None => inl {| exn_cls := KeyError; exn_str := "'" +:+ k +:+ "'" |}
      end
  | VList _ =>
      inl {| exn_cls := TypeError;
             exn_str := "list indices must be integers or slices, not str" |}
  | VStr _ =>
      inl {| exn_cls := TypeError;
             exn_str := "string indices must be integers, not 'str'" |}
  | _ =>
      inl {| exn_cls := TypeError;
             exn_str := "'" +:+ type_name v +:+ "' object is not subscriptable" |}
  end.

(** The part of a [requests.Response] the SDK looks at; [json] is the
    outcome of calling [response.json()]. *)
Record Response := {
  status_code : Z;
  text : string;
  json : exn + value;
  content : list byte
}.

(** ** Effects: a trace of events, and the environment that answers them *)

Inductive log_level := INFO | ERROR.

Inductive event :=
  | EvOpenRead (path : string)
  | EvPost (url : string) (payload : Dict) (timeout : Z)
  | EvGet (url : string)
  | EvWrite (path : string) (data : list byte)
  | EvSleep (seconds : Z)
  | EvLog (level : log_level) (msg : string)
  | EvPrint (msg : string).

(** The file system and the remote server.  Each answer may depend on
    everything that happened before (the trace so far), so that the same
    request can be answered differently at different times. *)
Record Env := {
  env_read : list event -> string -> exn + list byte;
  env_post : list event -> string -> Dict -> Z -> exn + Response;
  env_get : list event -> string -> exn + Response;
  env_write : list event -> string -> list byte -> option exn
}.

(** The outcome of running a piece of Python: a value, or a raised
    exception. *)
Inductive outcome (A : Type) :=
  | Ret (a : A)
  | Raise (e : exn).
Arguments Ret {A} a.
Arguments Raise {A} e.

(** A computation takes the trace so far and gives its outcome and the
    extended trace (oldest event first). *)
Definition M (A : Type) : Type := list event -> outcome A * list event.

Definition run {A} (m : M A) (t : list event) : outcome A * list event := m t.

#[global] Instance M_ret : MRet M := fun A a t => (Ret a, t).

#[global] Instance M_bind : MBind M := fun A B f m t =>
  match m t with
  | (Ret a, t') => f a t'
  | (Raise e, t') => (Raise e, t')
  end.

#[global] Instance M_throw : MThrow exn M := fun A e t => (Raise e, t).

(** Record one event. *)
Definition emit (ev : event) : M unit := fun t => (Ret tt, t ++ [ev]).

(** [try: body / except Exception as e: handler(e)]. *)
Definition try_except {A} (body : M A) (handler : exn -> M A) : M A := fun t =>
  match body t with
  | (Ret a, t') => (Ret a, t')
  | (Raise e, t') =>
      if is_Exception (exn_cls e) then handler e t' else (Raise e, t')
  end.

(** Lift an answer of the environment. *)
Definition lift_answer {A} (r : exn + A) : M A :=
  match r with
  | inl e => mthrow e
  | inr a => mret a
  end.

Section Effects.

Context (env : Env).

Definition logger (level : log_level) (msg : string) : M unit :=
  emit (EvLog level msg).

Definition print (msg : string) : M unit := emit (EvPrint msg).

Definition sleep (seconds : Z) : M unit := emit (EvSleep seconds).

(** [with open(path, 'rb') as f: f.read()]. *)
Definition open_read (path : string) : M (list byte) := fun t =>
  lift_answer (env_read env t path) (t ++ [EvOpenRead path]).

(** [self.session.post(url, json=payload, timeout=timeout)]. *)
Definition session_post (url : string) (payload : Dict) (timeout : Z)
    : M Response := fun t =>
  lift_answer (env_post env t url payload timeout)
    (t ++ [EvPost url payload timeout]).

(** [self.session.get(url)]. *)
Definition session_get (url : string) : M Response := fun t =>
  lift_answer (env_get env t url) (t ++ [EvGet url]).

(** [with open(path, 'wb') as f: f.write(data)]. *)
Definition open_write (path : string) (data : list byte) : M unit := fun t =>
  match env_write env t path data with
  | Some e => (Raise e, t ++ [EvWrite path data])
  | None => (Ret tt, t ++ [EvWrite path data])
  end.

(** [response.json()]. *)
Definition response_json (response : Response) : M value :=
  lift_answer (json response).

End Effects.

(** ** The SDK *)

(** The fields of an [ImageEnhancerSDK] instance that the operations read
    (the session is the environment; the logger is the trace). *)
Record ImageEnhancerSDK := {
  base_url : string;
  admin_key : string
}.

(** [os.getenv(name, fallback)] over the process environment. *)
Definition getenv (environ : gmap string string) (name fallback : string)
    : string :=
  match environ !! name with
  | Some v => v
  | None => fallback
  end.

(** Lines 20-22.  [admin_key] is [Optional[str]]; [x or y] takes [y] when
    [x] is [None] or the empty string. *)
Definition str_or (x : option string) (y : string) : string :=
  match x with
  | Some (String c k) => String c k
  | Some EmptyString | None => y
  end.

Definition init (environ : gmap string string) (base_url : string)
    (admin_key : option string) : ImageEnhancerSDK :=
  {| base_url := rstrip "/"%char base_url;
     admin_key := str_or admin_key (getenv environ "ADMIN_KEY" "dev-admin-key") |}.

(** [options or {}], [args or {}]. *)
Definition dict_or_empty (d : option Dict) : Dict :=
  match d with
  | Some d' => d'
  | None => ∅
  end.

(** The result a failed operation returns: [{'error': msg}]. *)
Definition error_result (msg : string) : value :=
  VDict {[ "error" := VStr msg ]}.

Definition enhance_url (self : ImageEnhancerSDK) : string :=
  base_url self +:+ "/api/enhance".
Definition classify_url (self : ImageEnhancerSDK) : string :=
  base_url self +:+ "/api/classify".
Definition admin_url (self : ImageEnhancerSDK) : string :=
  base_url self +:+ "/api/admin".

(** The request payloads of lines 60-64, 135 and 196-200. *)
Definition enhance_payload (image_bytes : list byte) (model : string)
    (options : option Dict) : Dict :=
  {[ "image" := VStr (encode_data_url image_bytes);
     "model" := VStr model;
     "options" := VDict (dict_or_empty options) ]}.

Definition classify_payload (image_bytes : list byte) : Dict :=
  {[ "image" := VStr (encode_data_url image_bytes) ]}.

Definition admin_payload (self : ImageEnhancerSDK) (command : string)
    (args : option Dict) : Dict :=
  {[ "command" := VStr command;
     "args" := VDict (dict_or_empty args);
     "adminKey" := VStr (admin_key self) ]}.

(** One entry of the list [batch_enhance] returns. *)
Record BatchItem := {
  image_path : string;
  result : value
}.

Section SDK.

Context (env : Env).

(** Lines 41-85. *)
Definition enhance_image (self : ImageEnhancerSDK) (image_path : string)
    (model : string) (options : option Dict) : M value :=
  try_except
    (image_bytes ← open_read env image_path;
     let image_data_url := encode_data_url image_bytes in
     let payload : Dict :=
       {[ "image" := VStr image_data_url;
          "model" := VStr model;
          "options" := VDict (dict_or_empty options) ]} in
     logger INFO ("Enhancing image: " +:+ image_path);;
     response ← session_post env (enhance_url self) payload 300;
     if status_code response =? 200 then
       result ← response_json response;
       logger INFO "Image enhancement completed successfully";;
       mret result
     else
       let error_msg :=
         "Enhancement failed: " +:+ str_of_Z (status_code response)
           +:+ " - " +:+ text response in
       logger ERROR error_msg;;
       mret (error_result error_msg))
    (fun e =>
       let error_msg := "Error enhancing image: " +:+ exn_str e in
       logger ERROR error_msg;;
       mret (error_result error_msg)).

(** Lines 120-149. *)
Definition classify_image (self : ImageEnhancerSDK) (image_path : string)
    : M value :=
  try_except
    (image_bytes ← open_read env image_path;
     let image_data_url := encode_data_url image_bytes in
     let payload : Dict := {[ "image" := VStr image_data_url ]} in
     response ← session_post env (classify_url self) payload 60;
     if status_code response =? 200 then response_json response
     else
       mret (error_result
               ("Classification failed: " +:+ str_of_Z (status_code response))))
    (fun e => mret (error_result ("Error classifying image: " +:+ exn_str e))).

(** Lines 193-214. *)
Definition _admin_command (self : ImageEnhancerSDK) (command : string)
    (args : option Dict) : M value :=
  try_except
    (let payload : Dict :=
       {[ "command" := VStr command;
          "args" := VDict (dict_or_empty args);
          "adminKey" := VStr (admin_key self) ]} in
     response ← session_post env (admin_url self) payload 60;
     if status_code response =? 200 then response_json response
     else
       mret (error_result
               ("Admin command failed: " +:+ str_of_Z (status_code response)
                  +:+ " - " +:+ text response)))
    (fun e =>
       mret (error_result ("Error executing admin command: " +:+ exn_str e))).

(** Lines 151-191: the named admin operations. *)
Definition get_system_status self := _admin_command self "status" None.
Definition get_health_check self := _admin_command self "health" None.
Definition get_logs self (level : string) (limit : Z) :=
  _admin_command self "logs"
    (Some {[ "level" := VStr level; "limit" := VInt limit ]}).
Definition get_metrics self (time_range : string) :=
  _admin_command self "metrics" (Some {[ "timeRange" := VStr time_range ]}).
Definition test_apis self := _admin_command self "test-apis" None.
Definition clear_cache self := _admin_command self "clear-cache" None.
Definition debug_image self (image_id : string) (include_metadata : bool) :=
  _admin_command self "debug-image"
    (Some {[ "imageId" := VStr image_id;
             "includeMetadata" := VBool include_metadata ]}).
Definition export_data self (data_type format : string) :=
  _admin_command self "export-data"
    (Some {[ "type" := VStr data_type; "format" := VStr format ]}).
Definition get_system_info self := _admin_command self "system-info" None.

(** [enhanced_url.startswith] exists only when the value is a [str]. *)
Definition as_str (v : value) : M string :=
  match v with
  | VStr s => mret s
  | _ =>
      mthrow {| exn_cls := AttributeError;
                exn_str := "'" +:+ type_name v
                             +:+ "' object has no attribute 'startswith'" |}
  end.

(** Lines 236-237 inside the monad, with the exceptions they raise. *)
Definition split_and_decode (enhanced_url : string) : M (list byte) :=
  match split_first ","%char enhanced_url with
  | None =>
      mthrow {| exn_cls := ValueError;
                exn_str := "not enough values to unpack (expected 2, got 1)" |}
  | Some (header, data) =>
      match Base64.b64decode data with
      | inr image_data => mret image_data
      | inl Base64.NotAscii =>
          mthrow {| exn_cls := ValueError;
                    exn_str := Base64.decode_error_str Base64.NotAscii |}
      | inl e =>
          mthrow {| exn_cls := BinasciiError;
                    exn_str := Base64.decode_error_str e |}
      end
  end.

(** Lines 234-244: the bytes of the enhanced image, or [None] where the
    source returns [False] after a failed download. *)
Definition fetch_image_data (enhanced_url : string) : M (option (list byte)) :=
  if startswith "data:" enhanced_url then
    image_data ← split_and_decode enhanced_url;
    mret (Some image_data)
  else
    response ← session_get env enhanced_url;
    if negb (status_code response =? 200) then
      logger ERROR ("Failed to download enhanced image: "
                      +:+ str_of_Z (status_code response));;
      mret None
    else mret (Some (content response)).

(** Lines 216-254. *)
Definition save_enhanced_image (self : ImageEnhancerSDK) (result : value)
    (output_path : string) : M bool :=
  try_except
    (present ← lift_answer (py_in "enhancedImage" result);
     if negb present then
       logger ERROR "No enhanced image in result";;
       mret false
     else
       enhanced ← lift_answer (py_getitem result "enhancedImage");
       enhanced_url ← as_str enhanced;
       fetched ← fetch_image_data enhanced_url;
       match fetched with
       | None => mret false
       | Some image_data =>
           open_write env output_path image_data;;
           logger INFO ("Enhanced image saved to: " +:+ output_path);;
           mret true
       end)
    (fun e =>
       logger ERROR ("Error saving enhanced image: " +:+ exn_str e);;
       mret false).

(** Lines 105-115: the loop body, for the items from index [i] on;
    [n] is [len(image_paths)]. *)
Fixpoint batch_loop (self : ImageEnhancerSDK) (model : string)
    (options : option Dict) (n : Z) (i : Z) (image_paths : list string)
    (results : list BatchItem) : M (list BatchItem) :=
  match image_paths with
  | [] => mret results
  | image_path :: rest =>
      logger INFO ("Processing image " +:+ str_of_Z (i + 1) +:+ "/"
                     +:+ str_of_Z n +:+ ": " +:+ image_path);;
      result ← enhance_image self image_path model options;
      let results' :=
        results ++ [{| image_path := image_path; result := result |}] in
      (if i <? n - 1 then sleep 1 else mret tt);;
      batch_loop self model options n (i + 1) rest results'
  end.

(** Lines 87-118. *)
Definition batch_enhance (self : ImageEnhancerSDK) (image_paths : list string)
    (model : string) (options : option Dict) (max_concurrent : Z)
    : M (list BatchItem) :=
  let n := Z.of_nat (length image_paths) in
  logger INFO ("Starting batch enhancement of " +:+ str_of_Z n +:+ " images");;
  results ← batch_loop self model options n 0 image_paths [];
  logger INFO "Batch enhancement completed";;
  mret results.

(** Lines 342-349 of [main]: count the items for which ['error' not in
    result] holds and whose image could be saved; the test raises a
    [TypeError], which nothing catches, on a result that is neither a
    dict, a list nor a string.  [output_path_of] stands for
    [str(output_dir / f"enhanced_{Path(p).name}")]. *)
Fixpoint tally_loop (self : ImageEnhancerSDK) (output_path_of : string -> string)
    (results : list BatchItem) (successful : Z) : M Z :=
  match results with
  | [] => mret successful
  | item :: rest =>
      failed ← lift_answer (py_in "error" (result item));
      if negb failed then
        saved ← save_enhanced_image self (result item)
                  (output_path_of (image_path item));
        tally_loop self output_path_of rest
          (if (saved : bool) then successful + 1 else successful)
      else tally_loop self output_path_of rest successful
  end.

(** Lines 335-351 of [main]: the batch branch once the image files are
    listed; returns the two numbers of the final message, or [None] when
    there was no image file. *)
Definition main_batch (self : ImageEnhancerSDK) (input_dir : string)
    (output_path_of : string -> string) (image_files : list string)
    (model : string) (scale : Z) : M (option (Z * Z)) :=
  match image_files with
  | [] =>
      print ("No image files found in " +:+ input_dir);;
      mret None
  | _ =>
      let options : Dict := {[ "scale" := VInt scale ]} in
      results ← batch_enhance self image_files model (Some options) 3;
      successful ← tally_loop self output_path_of results 0;
      let total := Z.of_nat (length results) in
      print ("Batch processing completed: " +:+ str_of_Z successful +:+ "/"
               +:+ str_of_Z total +:+ " images enhanced");;
      mret (Some (successful, total))
  end.

End SDK.

(** ** Exhaustive checks used in the proofs about base64 *)

(** A property of all numbers below a bound, decided by evaluation. *)
Definition below_all (n : nat) (P : N -> bool) : bool :=
  forallb P (map N.of_nat (seq 0 n)).

Definition below_all2 (n : nat) (P : N -> N -> bool) : bool :=
  below_all n (fun x => below_all n (P x)).

(** A 6-bit value is encoded by a character that is not the pad, is ASCII,
    and decodes to the same value. *)
Definition table_ok (v : N) : bool :=
  negb (Ascii.eqb (Base64.table_b2a v) Base64.pad)
  && (N_of_ascii (Base64.table_b2a v) <? 128)%N
  && match Base64.table_a2b (Base64.table_b2a v) with
     | Some w => (w =? v)%N
     | None => false
     end.

(** Regrouping 3x8 bits as 4x6 bits and back: the first two characters give
    back the first byte and the high half of the second. *)
Definition regroup_1_check (x y : N) : bool :=
  ((Base64.sextet0 x <? 64) && (Base64.sextet1 x y <? 64)
   && (N.lor (N.shiftl (Base64.sextet0 x) 2) (N.shiftr (Base64.sextet1 x y) 4) =? x)
   && (N.land (Base64.sextet1 x y) 15 =? N.shiftr y 4))%N.

(** The last two characters give back the low half of the second byte and
    the third byte. *)
Definition regroup_2_check (y z : N) : bool :=
  ((Base64.sextet2 y z <? 64) && (Base64.sextet3 z <? 64)
   && (N.lor (N.shiftl (N.shiftr y 4) 4) (N.shiftr (Base64.sextet2 y z) 2) =? y)
   && (N.lor (N.shiftl (N.land (Base64.sextet2 y z) 3) 6) (Base64.sextet3 z) =? z))%N.

(** ** Vocabulary of the properties *)

(** The faults of the environment are all instances of [Exception]: an
    unreadable file ([OSError]), a transport error or timeout (the
    exceptions of [requests]), a body that is not JSON, an unwritable file. *)
Record raises_only_Exception (env : Env) : Prop := {
  read_raises_Exception : forall t path e,
    env_read env t path = inl e -> is_Exception (exn_cls e) = true;
  post_raises_Exception : forall t url payload timeout e,
    env_post env t url payload timeout = inl e -> is_Exception (exn_cls e) = true;
  json_raises_Exception : forall t url payload timeout r e,
    env_post env t url payload timeout = inr r ->
    json r = inl e -> is_Exception (exn_cls e) = true;
  get_raises_Exception : forall t url e,
    env_get env t url = inl e -> is_Exception (exn_cls e) = true;
  write_raises_Exception : forall t path data e,
    env_write env t path data = Some e -> is_Exception (exn_cls e) = true
}.

(** A [Failure]: an ['error']-keyed result. *)
Definition is_failure (v : value) : bool :=
  match v with
  | VDict d => has_key "error" d
  | _ => false
  end.

(** The operation returned a failure whose message embeds the status code
    and the body text. *)
Definition failure_embeds (status : Z) (body : string) (o : outcome value)
    : Prop :=
  exists msg, o = Ret (error_result msg)
    /\ contains (str_of_Z status) msg = true
    /\ contains body msg = true.

(** What a mediator operation can return: a failure, or the parsed body of
    a 200 response to its POST. *)
Definition failure_or_parsed_body (env : Env) (url : string) (d : value) : Prop :=
  is_failure d = true
  \/ exists t0 payload timeout r,
       env_post env t0 url payload timeout = inr r
       /\ status_code r = 200 /\ json r = inr d.

(** The URLs of the POST requests in a trace. *)
Definition posted_urls (t : list event) : list string :=
  omap (fun ev => match ev with EvPost url _ _ => Some url | _ => None end) t.

(** The payloads of the POST requests in a trace. *)
Definition posted_payloads (t : list event) : list Dict :=
  omap (fun ev => match ev with EvPost _ payload _ => Some payload | _ => None end) t.

(** The events of one kind in a trace. *)
Definition is_get (ev : event) : bool :=
  match ev with EvGet _ => true | _ => false end.
Definition is_sleep (ev : event) : bool :=
  match ev with EvSleep _ => true | _ => false end.
Definition is_write (ev : event) : bool :=
  match ev with EvWrite _ _ => true | _ => false end.

Definition is_network (ev : event) : bool :=
  match ev with EvGet _ | EvPost _ _ _ => true | _ => false end.

(** No event of the trace is a network request. *)
Definition no_network (t : list event) : bool :=
  forallb (fun ev => negb (is_network ev)) t.

Definition count_events (P : event -> bool) (t : list event) : nat :=
  length (filter (fun ev => P ev = true) t).

(** The pace of a batch: which file was started, and where it paused.
    Each call of [enhance_image] starts by opening its file. *)
Inductive pace :=
  | Started (path : string)
  | Paused (seconds : Z).

Definition pace_of (ev : event) : option pace :=
  match ev with
  | EvOpenRead path => Some (Started path)
  | EvSleep seconds => Some (Paused seconds)
  | _ => None
  end.

Definition paces (t : list event) : list pace := omap pace_of t.

(** One start per path, in order, with a pause of one second between two
    consecutive starts and none after the last. *)
Fixpoint expected_pace (paths : list string) : list pace :=
  match paths with
  | [] => []
  | [path] => [Started path]
  | path :: rest => Started path :: Paused 1 :: expected_pace rest
  end.

(** [item] holds what a call of [enhance_image] on its path returned. *)
Definition enhanced_by (env : Env) (self : ImageEnhancerSDK) (model : string)
    (options : option Dict) (item : BatchItem) : Prop :=
  exists t0 t1,
    run (enhance_image env self (image_path item) model options) t0 =
    (Ret (result item), t1).

(** Whether [enhance_image] fails depends on the path only, as [fails]
    says. *)
Definition failing_paths (env : Env) (self : ImageEnhancerSDK) (model : string)
    (options : option Dict) (fails : string -> bool) : Prop :=
  forall t path d t',
    run (enhance_image env self path model options) t = (Ret d, t') ->
    is_failure d = fails path.

(** The number of [Failure] entries of a batch result. *)
Definition count_failures (rs : list BatchItem) : nat :=
  length (filter (fun item => is_failure (result item) = true) rs).

(** The number of paths that [fails] marks. *)
Definition count_failing (fails : string -> bool) (paths : list string) : nat :=
  length (filter (fun path => fails path = true) paths).

(** Every entry that is not a failure can be saved, whenever it is tried. *)
Definition all_saved (env : Env) (self : ImageEnhancerSDK)
    (output_path_of : string -> string) (rs : list BatchItem) : Prop :=
  forall item t0,
    item ∈ rs ->
    is_failure (result item) = false ->
    fst (run (save_enhanced_image env self (result item)
                (output_path_of (image_path item))) t0) = Ret true.

(** ** The rest of the module: logger set-up and the [enhance] command *)

(** The state of the logger named 'ImageEnhancerSDK', which
    [logging.getLogger] shares between all instances: its level and its
    handlers, each handler with the format string of its formatter. *)
Record handler := { handler_format : string }.

Record logger_state := {
  logger_level : option log_level;
  logger_handlers : list handler
}.

(** [logger.setLevel(level)] and [logger.addHandler(handler)]. *)
Definition setLevel (level : log_level) (logger : logger_state) : logger_state :=
  {| logger_level := Some level; logger_handlers := logger_handlers logger |}.

Definition addHandler (h : handler) (logger : logger_state) : logger_state :=
  {| logger_level := logger_level logger;
     logger_handlers := logger_handlers logger ++ [h] |}.

(** Lines 26-39. *)
Definition _setup_logger (logger : logger_state) : logger_state :=
  let logger := setLevel INFO logger in
  match logger_handlers logger with
  | [] =>
      addHandler
        {| handler_format :=
             "%(asctime)s - %(name)s - %(levelname)s - %(message)s" |}
        logger
  | _ :: _ => logger
  end.

Section Main.

Context (env : Env).

(** [str(v)] inside an f-string, for the values of a result. *)
Context (str_of_value : value -> string).

(** Lines 312-323 of [main]: the [enhance] command. *)
Definition main_enhance (self : ImageEnhancerSDK) (input output model : string)
    (scale : Z) : M unit :=
  let options : Dict := {[ "scale" := VInt scale ]} in
  result ← enhance_image env self input model (Some options);
  failed ← lift_answer (py_in "error" result);
  if (failed : bool) then
    error ← lift_answer (py_getitem result "error");
    print ("Error: " +:+ str_of_value error)
  else
    saved ← save_enhanced_image env self result output;
    if (saved : bool) then print ("Image enhanced successfully: " +:+ output)
    else print "Failed to save enhanced image".

End Main.

(** More kinds of events. *)
Definition is_post (ev : event) : bool :=
  match ev with EvPost _ _ _ => true | _ => false end.
Definition is_open_read (ev : event) : bool :=
  match ev with EvOpenRead _ => true | _ => false end.
Definition is_print (ev : event) : bool :=
  match ev with EvPrint _ => true | _ => false end.

(** The events a batch may produce: opening a file, a log line, a POST, a
    pause of one second. *)
Definition is_batch_event (ev : event) : bool :=
  match ev with
  | EvOpenRead _ | EvLog _ _ | EvPost _ _ _ => true
  | EvSleep seconds => seconds =? 1
  | _ => false
  end.

(** Every file is unreadable, at any time. *)
Definition all_unreadable (env : Env) (paths : list string) : Prop :=
  forall t path, path ∈ paths ->
    exists e, env_read env t path = inl e /\ is_Exception (exn_cls e) = true.

(** ** A concrete environment, for examples *)

(** Every file but [missing.jpg] holds the three bytes FF D8 FF.  The host
    [down] answers 503, the host [slow] times out, the host [empty] answers
    200 with an empty object, any other host answers 200 with an inline
    image.  Downloads succeed from [http://cdn/ok.png] only; every path but
    [/readonly/out.jpg] is writable. *)
Definition demo_read (t : list event) (path : string) : exn + list byte :=
  if String.eqb path "missing.jpg" then
    inl {| exn_cls := OSError;
           exn_str := "[Errno 2] No such file or directory: 'missing.jpg'" |}
  else inr [xff; xd8; xff].

Definition demo_post (t : list event) (url : string) (payload : Dict)
    (timeout : Z) : exn + Response :=
  if String.prefix "http://down" url then
    inr {| status_code := 503;
           text := "Service Unavailable";
           json := inl {| exn_cls := JSONDecodeError;
                          exn_str := "Expecting value: line 1 column 1 (char 0)" |};
           content := [] |}
  else if String.prefix "http://slow" url then
    inl {| exn_cls := Timeout; exn_str := "Read timed out. (read timeout=300)" |}
  else if String.prefix "http://empty" url then
    inr {| status_code := 200; text := "{}"; json := inr (VDict ∅);
           content := [] |}
  else
    inr {| status_code := 200;
           text := "{'enhancedImage': 'data:image/jpeg;base64,/9j/'}";
           json := inr (VDict {[ "enhancedImage" :=
                                   VStr "data:image/jpeg;base64,/9j/" ]});
           content := [] |}.

Definition demo_get (t : list event) (url : string) : exn + Response :=
  if String.eqb url "http://cdn/ok.png" then
    inr {| status_code := 200; text := "";
           json := inl {| exn_cls := JSONDecodeError; exn_str := "Expecting value" |};
           content := [x89; x50; x4e; x47] |}
  else
    inr {| status_code := 404; text := "Not Found";
           json := inl {| exn_cls := JSONDecodeError; exn_str := "Expecting value" |};
           content := [] |}.

Definition demo_write (t : list event) (path : string) (data : list byte)
    : option exn :=
  if String.eqb path "/readonly/out.jpg" then
    Some {| exn_cls := OSError; exn_str := "[Errno 30] Read-only file system" |}
  else None.

Definition demo_env : Env :=
  {| env_read := demo_read; env_post := demo_post;
     env_get := demo_get; env_write := demo_write |}.

Definition demo_sdk (base : string) : ImageEnhancerSDK :=
  init ∅ base None.

(** A server behind a misconfigured proxy: every POST is answered 200 with
    an HTML page, which is not JSON. *)
Definition html_response : Response :=
  {| status_code := 200;
     text := "<html>502 Bad Gateway</html>";
     json := inl {| exn_cls := JSONDecodeError;
                    exn_str := "Expecting value: line 1 column 1 (char 0)" |};
     content := [] |}.

Definition html_env : Env :=
  {| env_read := demo_read;
     env_post := fun _ _ _ _ => inr html_response;
     env_get := demo_get;
     env_write := demo_write |}.

(** The POST requests of a trace: URL, payload and timeout of each. *)
Definition posts (t : list event) : list (string * Dict * Z) :=
  omap (fun ev =>
          match ev with
          | EvPost url payload timeout => Some (url, payload, timeout)
          | _ => None
          end) t.

(** Nothing in the trace is a GET, a write, a pause or a printed line. *)
Definition only_reads_logs_posts (t : list event) : bool :=
  forallb (fun ev => is_open_read ev || is_post ev
                     || match ev with EvLog _ _ => true | _ => false end) t.

(** [ch in s] for a character. *)
Fixpoint has_char (ch : ascii) (s : string) : bool :=
  match s with
  | EmptyString => false
  | String c r => Ascii.eqb c ch || has_char ch r
  end.

(** The writes and the GET requests of a trace. *)
Definition writes (t : list event) : list (string * list byte) :=
  omap (fun ev =>
          match ev with
          | EvWrite path data => Some (path, data)
          | _ => None
          end) t.

Definition gets (t : list event) : list string :=
  omap (fun ev => match ev with EvGet url => Some url | _ => None end) t.

(** A server that sends the uploaded image back unchanged. *)
Definition echo_post (t : list event) (url : string) (payload : Dict)
    (timeout : Z) : exn + Response :=
  match payload !! "image" with
  | Some image =>
      inr {| status_code := 200; text := "";
             json := inr (VDict {[ "enhancedImage" := image ]});
             content := [] |}
  | None =>
      inr {| status_code := 400; text := "no image"; json := inr (VDict ∅);
             content := [] |}
  end.

Definition echo_env : Env :=
  {| env_read := demo_read; env_post := echo_post;
     env_get := demo_get; env_write := demo_write |}.

(** Every POST of the trace goes to [url] with the given timeout. *)
Definition posts_go_to (url : string) (timeout : Z)
    (ps : list (string * Dict * Z)) : bool :=
  forallb (fun p => String.eqb (fst (fst p)) url && (snd p =? timeout)) ps.

(** [str(v)] for the values the examples print: strings print as they
    are. *)
Definition str_of_str_value (v : value) : string :=
  match v with
  | VStr s => s
  | _ => EmptyString
  end.

(** ** The batch and the tally, step by step *)

(** The line the loop of [batch_enhance] logs before item [i] (counted
    from 0) of [n], and the pause it makes after that item. *)
Definition processing_line (i n : Z) (path : string) : event :=
  EvLog INFO ("Processing image " +:+ str_of_Z (i + 1) +:+ "/"
                +:+ str_of_Z n +:+ ": " +:+ path).

Definition pause_after (i n : Z) : list event :=
  if i <? n - 1 then [EvSleep 1] else [].

(** [batch_steps env self model options n i t paths rs t']: from the trace
    [t], with [i] items of [n] done, the items [rs] are what the paths give
    one after the other, each item holding its path and the value that
    the call of [enhance_image] made at that moment, in that trace,
    returned; [t'] is the trace after the last item. *)
Inductive batch_steps (env : Env) (self : ImageEnhancerSDK) (model : string)
    (options : option Dict) (n : Z)
    : Z -> list event -> list string -> list BatchItem -> list event -> Prop :=
  | batch_steps_nil i t :
      batch_steps env self model options n i t [] [] t
  | batch_steps_cons i t path rest d t1 rs t' :
      run (enhance_image env self path model options)
        (t ++ [processing_line i n path]) = (Ret d, t1) ->
      batch_steps env self model options n (i + 1) (t1 ++ pause_after i n)
        rest rs t' ->
      batch_steps env self model options n i t (path :: rest)
        ({| image_path := path; result := d |} :: rs) t'.

(** [tally_steps env self output_path_of t rs flags t']: going through the
    items [rs] from the trace [t], an item for which ['error' in result]
    holds is skipped and flagged [false]; for any other item
    [save_enhanced_image] is called, in the trace reached so far, and the
    item is flagged with what that call returned. *)
Inductive tally_steps (env : Env) (self : ImageEnhancerSDK)
    (output_path_of : string -> string)
    : list event -> list BatchItem -> list bool -> list event -> Prop :=
  | tally_steps_nil t :
      tally_steps env self output_path_of t [] [] t
  | tally_steps_failed t item rs flags t' :
      py_in "error" (result item) = inr true ->
      tally_steps env self output_path_of t rs flags t' ->
      tally_steps env self output_path_of t (item :: rs) (false :: flags) t'
  | tally_steps_tried t item rs saved t1 flags t' :
      py_in "error" (result item) = inr false ->
      run (save_enhanced_image env self (result item)
             (output_path_of (image_path item))) t = (Ret saved, t1) ->
      tally_steps env self output_path_of t1 rs flags t' ->
      tally_steps env self output_path_of t (item :: rs) (saved :: flags) t'.

(** The number of items flagged as saved. *)
Definition count_saved (flags : list bool) : Z :=
  Z.of_nat (length (filter (fun saved => saved = true) flags)).

(** The server keeps to its contract: the body of a 200 response, when it
    parses, is a JSON object (the [Dict] that the operations are annotated
    to return). *)
Definition bodies_are_objects (env : Env) : Prop :=
  forall t url payload timeout r v,
    env_post env t url payload timeout = inr r ->
    status_code r = 200 ->
    json r = inr v ->
    exists d, v = VDict d.



(** The lines "Enhanced image saved to: ..." are the only lines that
    [save_enhanced_image] logs at level INFO. *)
Definition is_info_log (ev : event) : bool :=
  match ev with EvLog INFO _ => true | _ => false end.

(** ** Proof automation *)

(** Unfold the monad and the primitive effects, leaving the answers of the
    environment to case analysis. *)
Ltac unfold_monad :=
  unfold run, try_except, mbind, M_bind, mret, M_ret, mthrow, M_throw,
    logger, print, sleep, emit, open_read, session_post, session_get,
    open_write, response_json, lift_answer in *.

(** Unfold [save_enhanced_image] on a dict whose ['enhancedImage'] entry is
    known. *)
Ltac unfold_save Hfield :=
  unfold save_enhanced_image, fetch_image_data, split_and_decode, as_str,
    py_in, py_getitem, has_key, lift_answer;
  unfold_monad; simpl; rewrite ?Hfield; simpl.

(** Close a branch of [save_enhanced_image] that does not return [True]. *)
Ltac save_leaf :=
  eexists; split; [by rewrite <- ?app_assoc|];
  repeat split; try done; try (simpl; lia);
  try (by intros [=]); try (intros _; by eexists).

(** * Properties *)

(** ** Strings *)

Lemma app_nil_l (b : string) : "" +:+ b = b.
Proof. reflexivity. Qed.

Lemma app_cons (c : ascii) (a b : string) : String c a +:+ b = String c (a +:+ b).
Proof. reflexivity. Qed.

Lemma app_assoc_str (a b c : string) : (a +:+ b) +:+ c = a +:+ b +:+ c.
Proof.
  induction a as [|x a IH]; [done|].
  by rewrite !app_cons, IH.
Qed.

Lemma prefix_refl (p : string) : String.prefix p p = true.
Proof.
  induction p as [|c p IH]; simpl; [done|].
  destruct (ascii_dec c c); [done|congruence].
Qed.

Lemma prefix_app (p s : string) : String.prefix p (p +:+ s) = true.
Proof.
  induction p as [|c p IH].
  - rewrite app_nil_l. by destruct s.
  - rewrite app_cons. simpl. destruct (ascii_dec c c); [done|congruence].
Qed.

Lemma contains_unfold (m h : string) :
  contains m h =
  String.prefix m h ||
  match h with EmptyString => false | String _ h' => contains m h' end.
Proof. by destruct h. Qed.

Lemma contains_here (m s : string) : contains m (m +:+ s) = true.
Proof. by rewrite contains_unfold, prefix_app. Qed.

Lemma contains_app_r (m a b : string) :
  contains m b = true -> contains m (a +:+ b) = true.
Proof.
  intros H. induction a as [|c a IH]; [done|].
  rewrite app_cons, contains_unfold, IH. apply orb_true_r.
Qed.

Lemma contains_embedded (m a b : string) : contains m (a +:+ m +:+ b) = true.
Proof. apply contains_app_r, contains_here. Qed.

Lemma contains_at_end (m a : string) : contains m (a +:+ m) = true.
Proof.
  apply contains_app_r. by rewrite contains_unfold, prefix_refl.
Qed.


(** ** Base64 *)

Example b64encode_one_byte : Base64.b64encode [x4d] = "TQ==".
Proof. reflexivity. Qed.

Example b64encode_two_bytes : Base64.b64encode [x4d; x61] = "TWE=".
Proof. reflexivity. Qed.

Example b64decode_skips_newline :
  Base64.b64decode (String "T" (String "010" "WFu")) = inr [x4d; x61; x6e].
Proof. reflexivity. Qed.

Example b64decode_stops_at_padding :
  Base64.b64decode "TQ==TWFu" = inr [x4d].
Proof. reflexivity. Qed.

Example b64decode_lone_pad_skipped :
  Base64.b64decode "TW=Fu" = inr [x4d; x61; x6e].
Proof. reflexivity. Qed.

Example b64decode_incorrect_padding :
  Base64.b64decode "TQ=" = inl Base64.IncorrectPadding.
Proof. reflexivity. Qed.

Example b64decode_invalid_length :
  Base64.b64decode "TWFuT" = inl (Base64.InvalidLength 5)
  /\ Base64.b64decode "TWFu=T" = inl (Base64.InvalidLength 5)
  /\ Base64.b64decode "T=" = inl (Base64.InvalidLength 1)
  /\ Base64.decode_error_str (Base64.InvalidLength 5) =
     "Invalid base64-encoded string: number of data characters (5) cannot be 1 more than a multiple of 4".
Proof. repeat split; reflexivity. Qed.

Example b64decode_padding_after_data :
  Base64.b64decode "TWFuTQ=x" = inl Base64.IncorrectPadding
  /\ Base64.b64decode "TWFuTQ==T" = inr [x4d; x61; x6e; x4d].
Proof. split; reflexivity. Qed.

(** ** Membership and subscripts on JSON values *)

Example py_in_examples :
  py_in "error" (VDict {[ "error" := VInt 1 ]}) = inr true
  /\ py_in "error" (VList [VStr "x"; VStr "error"]) = inr true
  /\ py_in "error" (VList [VList [VStr "error"]]) = inr false
  /\ py_in "error" (VStr "an error here") = inr true
  /\ py_in "error" (VStr "fine") = inr false
  /\ py_in "error" VNone =
     inl {| exn_cls := TypeError;
            exn_str := "argument of type 'NoneType' is not iterable" |}.
Proof. repeat split; reflexivity. Qed.

Example py_getitem_examples :
  py_getitem (VDict {[ "x" := VInt 1 ]}) "error" =
    inl {| exn_cls := KeyError; exn_str := "'error'" |}
  /\ py_getitem (VInt 3) "error" =
     inl {| exn_cls := TypeError;
            exn_str := "'int' object is not subscriptable" |}.
Proof. split; reflexivity. Qed.

Lemma below_all_spec (n : nat) (P : N -> bool) :
  below_all n P = true -> forall v, (v < N.of_nat n)%N -> P v = true.
Proof.
  unfold below_all. rewrite forallb_forall. intros H v Hv.
  apply H. apply in_map_iff. exists (N.to_nat v). split; [lia|].
  apply in_seq. lia.
Qed.

Lemma below_all2_spec (n : nat) (P : N -> N -> bool) :
  below_all2 n P = true ->
  forall x y, (x < N.of_nat n)%N -> (y < N.of_nat n)%N -> P x y = true.
Proof.
  intros H x y Hx Hy.
  apply (below_all_spec n (P x)); [|done].
  by apply (below_all_spec n (fun x => below_all n (P x))).
Qed.

Lemma to_N_lt_256 (a : byte) : (Byte.to_N a < 256)%N.
Proof. pose proof (Byte.to_N_bounded a). lia. Qed.

Lemma byte_of_to_N (a : byte) : Base64.byte_of_N (Byte.to_N a) = a.
Proof.
  unfold Base64.byte_of_N. pose proof (Byte.to_N_bounded a).
  rewrite N.mod_small by lia. by rewrite Byte.of_to_N.
Qed.

Lemma table_roundtrip (v : N) :
  (v < 64)%N ->
  Ascii.eqb (Base64.table_b2a v) Base64.pad = false
  /\ (N_of_ascii (Base64.table_b2a v) <? 128)%N = true
  /\ Base64.table_a2b (Base64.table_b2a v) = Some v.
Proof.
  intros Hv.
  assert (H : table_ok v = true).
  { apply (below_all_spec 64); [by vm_compute|lia]. }
  unfold table_ok in H.
  apply andb_prop in H as [H H3]. apply andb_prop in H as [H1 H2].
  split; [by apply negb_true_iff|]. split; [done|].
  destruct (Base64.table_a2b (Base64.table_b2a v)) as [w|]; [|done].
  by apply N.eqb_eq in H3 as ->.
Qed.

Lemma regroup_1 (x y : N) :
  (x < 256)%N -> (y < 256)%N ->
  (Base64.sextet0 x < 64)%N /\ (Base64.sextet1 x y < 64)%N
  /\ N.lor (N.shiftl (Base64.sextet0 x) 2) (N.shiftr (Base64.sextet1 x y) 4) = x
  /\ N.land (Base64.sextet1 x y) 15 = N.shiftr y 4.
Proof.
  intros Hx Hy.
  assert (H : regroup_1_check x y = true).
  { apply (below_all2_spec 256); [by vm_compute|lia..]. }
  unfold regroup_1_check in H.
  repeat (apply andb_prop in H as [H ?]).
  repeat split; by (apply N.ltb_lt || apply N.eqb_eq).
Qed.

Lemma regroup_2 (y z : N) :
  (y < 256)%N -> (z < 256)%N ->
  (Base64.sextet2 y z < 64)%N /\ (Base64.sextet3 z < 64)%N
  /\ N.lor (N.shiftl (N.shiftr y 4) 4) (N.shiftr (Base64.sextet2 y z) 2) = y
  /\ N.lor (N.shiftl (N.land (Base64.sextet2 y z) 3) 6) (Base64.sextet3 z) = z.
Proof.
  intros Hy Hz.
  assert (H : regroup_2_check y z = true).
  { apply (below_all2_spec 256); [by vm_compute|lia..]. }
  unfold regroup_2_check in H.
  repeat (apply andb_prop in H as [H ?]).
  repeat split; by (apply N.ltb_lt || apply N.eqb_eq).
Qed.

(** One step of the decoding loop on a character of the alphabet. *)
Lemma a2b_step (w q : nat) (l : N) (p : nat) (v : N) (rest : string) :
  (v < 64)%N ->
  Base64.a2b_base64 w q l p (String (Base64.table_b2a v) rest) =
  match q with
  | 0%nat => Base64.a2b_base64 w 1 v 0 rest
  | 1%nat =>
      Base64.put_byte
        (Base64.byte_of_N (N.lor (N.shiftl l 2) (N.shiftr v 4)))
        (Base64.a2b_base64 (S w) 2 (N.land v 15) 0 rest)
  | 2%nat =>
      Base64.put_byte
        (Base64.byte_of_N (N.lor (N.shiftl l 4) (N.shiftr v 2)))
        (Base64.a2b_base64 (S w) 3 (N.land v 3) 0 rest)
  | _ =>
      Base64.put_byte
        (Base64.byte_of_N (N.lor (N.shiftl l 6) v))
        (Base64.a2b_base64 (S w) 0 0 0 rest)
  end.
Proof.
  intros Hv. destruct (table_roundtrip v Hv) as (Hpad & _ & Htab).
  simpl. by rewrite Hpad, Htab.
Qed.

(** A full group of three bytes is decoded back, and the loop is again at
    the start of a quad. *)
Lemma a2b_group (w : nat) (a b c : byte) (rest : string) :
  Base64.a2b_base64 w 0 0 0 (Base64.b64encode (a :: b :: c :: []) +:+ rest) =
  Base64.put_byte a
    (Base64.put_byte b
       (Base64.put_byte c (Base64.a2b_base64 (S (S (S w))) 0 0 0 rest))).
Proof.
  pose proof (to_N_lt_256 a) as Ha. pose proof (to_N_lt_256 b) as Hb.
  pose proof (to_N_lt_256 c) as Hc.
  destruct (regroup_1 _ _ Ha Hb) as (H0 & H1 & Ea & El).
  destruct (regroup_2 _ _ Hb Hc) as (H2 & H3 & Eb & Ec).
  cbv [Base64.b64encode]. rewrite !app_cons, app_nil_l.
  rewrite a2b_step by done. rewrite a2b_step by done.
  rewrite a2b_step by done. rewrite a2b_step by done.
  by rewrite Ea, El, Eb, Ec, !byte_of_to_N.
Qed.

(** Induction on a list, three elements at a time. *)
Lemma list_ind3 {A : Type} (P : list A -> Prop) :
  P [] ->
  (forall a, P [a]) ->
  (forall a b, P [a; b]) ->
  (forall a b c r, P r -> P (a :: b :: c :: r)) ->
  forall l, P l.
Proof.
  intros H0 H1 H2 H3 l.
  cut (P l /\ (forall a, P (a :: l)) /\ (forall a b, P (a :: b :: l))).
  { by intros [? _]. }
  induction l as [|c r (IH0 & IH1 & IH2)]; [by auto|].
  split; [apply IH1|]. split; [intros a; apply IH2|].
  intros a b. by apply H3.
Qed.

Lemma b64encode_group (a b c : byte) (rest : list byte) :
  Base64.b64encode (a :: b :: c :: rest) =
  Base64.b64encode [a; b; c] +:+ Base64.b64encode rest.
Proof. reflexivity. Qed.

Lemma a2b_b64encode (bs : list byte) :
  forall w, Base64.a2b_base64 w 0 0 0 (Base64.b64encode bs) = inr bs.
Proof.
  induction bs as [|a|a b|a b c rest IH] using list_ind3; intros w.
  - reflexivity.
  - pose proof (to_N_lt_256 a) as Ha.
    destruct (regroup_1 (Byte.to_N a) 0 Ha ltac:(lia)) as (H0 & H1 & Ea & _).
    cbv [Base64.b64encode].
    rewrite a2b_step by done. rewrite a2b_step by done.
    by rewrite Ea, byte_of_to_N.
  - pose proof (to_N_lt_256 a) as Ha. pose proof (to_N_lt_256 b) as Hb.
    destruct (regroup_1 _ _ Ha Hb) as (H0 & H1 & Ea & El).
    destruct (regroup_2 (Byte.to_N b) 0 Hb ltac:(lia)) as (H2 & _ & Eb & _).
    cbv [Base64.b64encode].
    rewrite a2b_step by done. rewrite a2b_step by done.
    rewrite a2b_step by done.
    by rewrite Ea, El, Eb, !byte_of_to_N.
  - by rewrite b64encode_group, a2b_group, IH.
Qed.

Lemma is_ascii_b64encode (bs : list byte) :
  Base64.is_ascii (Base64.b64encode bs) = true.
Proof.
  induction bs as [|a|a b|a b c rest IH] using list_ind3.
  - reflexivity.
  - pose proof (to_N_lt_256 a) as Ha.
    destruct (regroup_1 (Byte.to_N a) 0 Ha ltac:(lia)) as (H0 & H1 & _).
    destruct (table_roundtrip _ H0) as (_ & A0 & _).
    destruct (table_roundtrip _ H1) as (_ & A1 & _).
    cbv [Base64.b64encode Base64.is_ascii]. by rewrite A0, A1.
  - pose proof (to_N_lt_256 a) as Ha. pose proof (to_N_lt_256 b) as Hb.
    destruct (regroup_1 _ _ Ha Hb) as (H0 & H1 & _).
    destruct (regroup_2 (Byte.to_N b) 0 Hb ltac:(lia)) as (H2 & _).
    destruct (table_roundtrip _ H0) as (_ & A0 & _).
    destruct (table_roundtrip _ H1) as (_ & A1 & _).
    destruct (table_roundtrip _ H2) as (_ & A2 & _).
    cbv [Base64.b64encode Base64.is_ascii]. by rewrite A0, A1, A2.
  - pose proof (to_N_lt_256 a) as Ha. pose proof (to_N_lt_256 b) as Hb.
    pose proof (to_N_lt_256 c) as Hc.
    destruct (regroup_1 _ _ Ha Hb) as (H0 & H1 & _).
    destruct (regroup_2 _ _ Hb Hc) as (H2 & H3 & _).
    destruct (table_roundtrip _ H0) as (_ & A0 & _).
    destruct (table_roundtrip _ H1) as (_ & A1 & _).
    destruct (table_roundtrip _ H2) as (_ & A2 & _).
    destruct (table_roundtrip _ H3) as (_ & A3 & _).
    change (Base64.b64encode (a :: b :: c :: rest)) with
      (String (Base64.table_b2a (Base64.sextet0 (Byte.to_N a)))
         (String (Base64.table_b2a (Base64.sextet1 (Byte.to_N a) (Byte.to_N b)))
            (String (Base64.table_b2a (Base64.sextet2 (Byte.to_N b) (Byte.to_N c)))
               (String (Base64.table_b2a (Base64.sextet3 (Byte.to_N c)))
                  (Base64.b64encode rest))))).
    simpl. by rewrite A0, A1, A2, A3, IH.
Qed.

Lemma b64decode_b64encode (bs : list byte) :
  Base64.b64decode (Base64.b64encode bs) = inr bs.
Proof.
  unfold Base64.b64decode. by rewrite is_ascii_b64encode, a2b_b64encode.
Qed.

(** The base64 alphabet has no comma, and neither has the fixed header:
    the first comma of a data URI is the one that ends the header. *)
Lemma split_first_data_url (bs : list byte) :
  split_first ","%char (encode_data_url bs) =
  Some ("data:image/jpeg;base64", Base64.b64encode bs).
Proof. reflexivity. Qed.

Lemma startswith_data_url (bs : list byte) :
  startswith "data:" (encode_data_url bs) = true.
Proof. reflexivity. Qed.

(** C2: for every byte sequence, building the data URI as [enhance_image]
    does (lines 57-58) and then splitting on the first comma and
    base64-decoding the remainder as [save_enhanced_image] does (lines
    236-237) gives back the original bytes, raising nothing and with no
    effect; and the three bytes FF D8 FF give exactly
    "data:image/jpeg;base64,/9j/". *)
Theorem data_url_roundtrip :
  (forall (bs : list byte) (t : list event),
     run (split_and_decode (encode_data_url bs)) t = (Ret bs, t))
  /\ encode_data_url [xff; xd8; xff] = "data:image/jpeg;base64,/9j/".
Proof.
  split; [|reflexivity].
  intros bs t. unfold run, split_and_decode.
  by rewrite split_first_data_url, b64decode_b64encode.
Qed.

(** ** The mediator operations *)

(** The demo environment raises instances of [Exception] only. *)
Lemma demo_env_raises_only_Exception : raises_only_Exception demo_env.
Proof.
  split; simpl.
  - intros t path e. unfold demo_read. case_match; naive_solver.
  - intros t url payload timeout e. unfold demo_post.
    repeat case_match; naive_solver.
  - intros t url payload timeout r e. unfold demo_post.
    repeat case_match; naive_solver.
  - intros t url e. unfold demo_get. case_match; naive_solver.
  - intros t path data e. unfold demo_write. case_match; naive_solver.
Qed.

(** What [enhance_image] does on a response whose status is not 200. *)
Lemma enhance_image_non_200 env self path model options t image_bytes r :
  env_read env t path = inr image_bytes ->
  env_post env (t ++ [EvOpenRead path; EvLog INFO ("Enhancing image: " +:+ path)])
    (enhance_url self) (enhance_payload image_bytes model options) 300 = inr r ->
  status_code r <> 200 ->
  fst (run (enhance_image env self path model options) t) =
  Ret (error_result ("Enhancement failed: " +:+ str_of_Z (status_code r)
                       +:+ " - " +:+ text r)).
Proof.
  intros Hread Hpost Hstatus.
  unfold enhance_image. unfold_monad.
  rewrite Hread. simpl. rewrite <- app_assoc. simpl.
  unfold enhance_payload in Hpost. rewrite Hpost. simpl.
  destruct (Z.eqb_spec (status_code r) 200); [done|]. done.
Qed.

Lemma _admin_command_non_200 env self command args t r :
  env_post env t (admin_url self) (admin_payload self command args) 60 = inr r ->
  status_code r <> 200 ->
  fst (run (_admin_command env self command args) t) =
  Ret (error_result ("Admin command failed: " +:+ str_of_Z (status_code r)
                       +:+ " - " +:+ text r)).
Proof.
  intros Hpost Hstatus.
  unfold _admin_command. unfold_monad.
  unfold admin_payload in Hpost. rewrite Hpost. simpl.
  by destruct (Z.eqb_spec (status_code r) 200).
Qed.

Lemma classify_image_non_200 env self path t image_bytes r :
  env_read env t path = inr image_bytes ->
  env_post env (t ++ [EvOpenRead path]) (classify_url self)
    (classify_payload image_bytes) 60 = inr r ->
  status_code r <> 200 ->
  fst (run (classify_image env self path) t) =
  Ret (error_result ("Classification failed: " +:+ str_of_Z (status_code r))).
Proof.
  intros Hread Hpost Hstatus.
  unfold classify_image. unfold_monad.
  rewrite Hread. simpl.
  unfold classify_payload in Hpost. rewrite Hpost. simpl.
  by destruct (Z.eqb_spec (status_code r) 200).
Qed.

Lemma is_failure_error_result (msg : string) : is_failure (error_result msg) = true.
Proof. reflexivity. Qed.

(** What the three operations do on a response whose status is not 200:
    [enhance_image] and [_admin_command] return a failure whose message
    embeds the status code and the body text; [classify_image] returns the
    failure "Classification failed: <status>", which embeds the status
    code.  None of the three returns anything but an ['error']-keyed
    result for such a response. *)
Theorem non_200_is_failure (env : Env) (self : ImageEnhancerSDK) (t : list event)
    (r : Response) :
  status_code r <> 200 ->
  (forall path model options image_bytes,
     env_read env t path = inr image_bytes ->
     env_post env
       (t ++ [EvOpenRead path; EvLog INFO ("Enhancing image: " +:+ path)])
       (enhance_url self) (enhance_payload image_bytes model options) 300
       = inr r ->
     failure_embeds (status_code r) (text r)
       (fst (run (enhance_image env self path model options) t)))
  /\ (forall command args,
        env_post env t (admin_url self) (admin_payload self command args) 60
          = inr r ->
        failure_embeds (status_code r) (text r)
          (fst (run (_admin_command env self command args) t)))
  /\ (forall path image_bytes,
        env_read env t path = inr image_bytes ->
        env_post env (t ++ [EvOpenRead path]) (classify_url self)
          (classify_payload image_bytes) 60 = inr r ->
        exists msg,
          fst (run (classify_image env self path) t) = Ret (error_result msg)
          /\ msg = "Classification failed: " +:+ str_of_Z (status_code r)
          /\ contains (str_of_Z (status_code r)) msg = true
          /\ is_failure (error_result msg) = true).
Proof.
  intros Hstatus. repeat split.
  - intros path model options image_bytes Hread Hpost.
    eexists. split; [by eapply enhance_image_non_200|].
    split; [apply contains_embedded|].
    rewrite <- !app_assoc_str. apply contains_at_end.
  - intros command args Hpost.
    eexists. split; [by eapply _admin_command_non_200|].
    split; [apply contains_embedded|].
    rewrite <- !app_assoc_str. apply contains_at_end.
  - intros path image_bytes Hread Hpost.
    eexists. split; [by eapply classify_image_non_200|].
    split; [done|]. split; [apply contains_at_end|done].
Qed.

(** Embedding the body text fails for [classify_image]: on a 503 response
    with body "Service Unavailable" the message is
    "Classification failed: 503", which does not embed the body. *)
Lemma classify_failure_omits_body :
  ~ (forall env self path t image_bytes r,
       env_read env t path = inr image_bytes ->
       env_post env (t ++ [EvOpenRead path]) (classify_url self)
         (classify_payload image_bytes) 60 = inr r ->
       status_code r <> 200 ->
       failure_embeds (status_code r) (text r)
         (fst (run (classify_image env self path) t))).
Proof.
  intros H.
  destruct (H demo_env (demo_sdk "http://down") "photo.jpg" []
              [xff; xd8; xff]
              {| status_code := 503; text := "Service Unavailable";
                 json := inl {| exn_cls := JSONDecodeError;
                                exn_str := "Expecting value: line 1 column 1 (char 0)" |};
                 content := [] |})
    as (msg & Hmsg & _ & Hbody); [done..|].
  vm_compute in Hmsg. injection Hmsg as <-.
  vm_compute in Hbody. done.
Qed.

Lemma non_200_is_failure_witness :
  failure_embeds 503 "Service Unavailable"
    (fst (run (enhance_image demo_env (demo_sdk "http://down") "photo.jpg"
                 "nightmareai/real-esrgan" None) []))
  /\ failure_embeds 503 "Service Unavailable"
       (fst (run (_admin_command demo_env (demo_sdk "http://down") "status" None) [])).
Proof.
  pose proof (non_200_is_failure demo_env (demo_sdk "http://down") []
                {| status_code := 503; text := "Service Unavailable";
                   json := inl {| exn_cls := JSONDecodeError;
                                  exn_str := "Expecting value: line 1 column 1 (char 0)" |};
                   content := [] |}) as H.
  destruct H as (He & Ha & _); [simpl; lia|].
  split.
  - apply (He "photo.jpg" "nightmareai/real-esrgan" None [xff; xd8; xff]);
      reflexivity.
  - apply (Ha "status" None). reflexivity.
Defined.

(** C1: a defect of [classify_image].  On the response 503 with body
    "Service Unavailable", [enhance_image] and [_admin_command] return
    failures whose messages embed the status code and the body text, as
    the claim says; [classify_image] (line 146) returns the failure
    "Classification failed: 503", which embeds the status code but has
    dropped the body text. *)
Theorem classify_image_drops_body_text :
  fst (run (enhance_image demo_env (demo_sdk "http://down") "photo.jpg"
              "nightmareai/real-esrgan" None) []) =
    Ret (error_result "Enhancement failed: 503 - Service Unavailable")
  /\ fst (run (_admin_command demo_env (demo_sdk "http://down") "status" None) []) =
     Ret (error_result "Admin command failed: 503 - Service Unavailable")
  /\ fst (run (classify_image demo_env (demo_sdk "http://down") "photo.jpg") []) =
     Ret (error_result "Classification failed: 503")
  /\ contains "503" "Classification failed: 503" = true
  /\ contains "Service Unavailable" "Classification failed: 503" = false
  /\ is_failure (error_result "Classification failed: 503") = true.
Proof.
  assert (Hstatus : status_code
            {| status_code := 503; text := "Service Unavailable";
               json := inl {| exn_cls := JSONDecodeError;
                              exn_str := "Expecting value: line 1 column 1 (char 0)" |};
               content := [] |} <> 200) by (simpl; lia).
  split; [|split; [|split]].
  - by apply (enhance_image_non_200 demo_env (demo_sdk "http://down")
                "photo.jpg" "nightmareai/real-esrgan" None [] [xff; xd8; xff] _
                eq_refl eq_refl Hstatus).
  - by apply (_admin_command_non_200 demo_env (demo_sdk "http://down")
                "status" None [] _ eq_refl Hstatus).
  - by apply (classify_image_non_200 demo_env (demo_sdk "http://down")
                "photo.jpg" [] [xff; xd8; xff] _ eq_refl eq_refl Hstatus).
  - by vm_compute.
Qed.

(** C5: whatever the inputs, and whichever faults the environment raises
    (file unreadable, transport error, timeout, body that is not JSON),
    each of [enhance_image], [classify_image] and [_admin_command] returns
    a value and raises nothing; the value is a failure unless it is the
    parsed body of a 200 response. *)
Theorem mediator_never_raises (env : Env) (self : ImageEnhancerSDK)
    (t : list event) :
  raises_only_Exception env ->
  (forall path model options, exists d t',
      run (enhance_image env self path model options) t = (Ret d, t')
      /\ failure_or_parsed_body env (enhance_url self) d)
  /\ (forall path, exists d t',
        run (classify_image env self path) t = (Ret d, t')
        /\ failure_or_parsed_body env (classify_url self) d)
  /\ (forall command args, exists d t',
        run (_admin_command env self command args) t = (Ret d, t')
        /\ failure_or_parsed_body env (admin_url self) d).
Proof.
  intros [Hread Hpost Hjson _ _]. repeat split.
  - intros path model options. unfold enhance_image. unfold_monad.
    destruct (env_read env t path) as [e|image_bytes] eqn:Er; simpl.
    { rewrite (Hread _ _ _ Er). eexists _, _. split; [done|by left]. }
    match goal with |- context [env_post env ?t0 ?u ?p ?to] =>
      destruct (env_post env t0 u p to) as [e|r] eqn:Ep end; simpl.
    { rewrite (Hpost _ _ _ _ _ Ep). eexists _, _. split; [done|by left]. }
    destruct (Z.eqb_spec (status_code r) 200) as [E200|]; simpl.
    + destruct (json r) as [e|d] eqn:Ej; simpl.
      * rewrite (Hjson _ _ _ _ _ _ Ep Ej). eexists _, _. split; [done|by left].
      * eexists _, _. split; [done|]. right. by eexists _, _, _, _.
    + eexists _, _. split; [done|by left].
  - intros path. unfold classify_image. unfold_monad.
    destruct (env_read env t path) as [e|image_bytes] eqn:Er; simpl.
    { rewrite (Hread _ _ _ Er). eexists _, _. split; [done|by left]. }
    match goal with |- context [env_post env ?t0 ?u ?p ?to] =>
      destruct (env_post env t0 u p to) as [e|r] eqn:Ep end; simpl.
    { rewrite (Hpost _ _ _ _ _ Ep). eexists _, _. split; [done|by left]. }
    destruct (Z.eqb_spec (status_code r) 200) as [E200|]; simpl.
    + destruct (json r) as [e|d] eqn:Ej; simpl.
      * rewrite (Hjson _ _ _ _ _ _ Ep Ej). eexists _, _. split; [done|by left].
      * eexists _, _. split; [done|]. right. by eexists _, _, _, _.
    + eexists _, _. split; [done|by left].
  - intros command args. unfold _admin_command. unfold_monad.
    match goal with |- context [env_post env ?t0 ?u ?p ?to] =>
      destruct (env_post env t0 u p to) as [e|r] eqn:Ep end; simpl.
    { rewrite (Hpost _ _ _ _ _ Ep). eexists _, _. split; [done|by left]. }
    destruct (Z.eqb_spec (status_code r) 200) as [E200|]; simpl.
    + destruct (json r) as [e|d] eqn:Ej; simpl.
      * rewrite (Hjson _ _ _ _ _ _ Ep Ej). eexists _, _. split; [done|by left].
      * eexists _, _. split; [done|]. right. by eexists _, _, _, _.
    + eexists _, _. split; [done|by left].
Qed.

(** ** The constructor *)

Lemma rstrip_cons (ch c : ascii) (s : string) :
  rstrip ch (String c s) =
  match rstrip ch s with
  | EmptyString => if Ascii.eqb c ch then EmptyString else String c EmptyString
  | r' => String c r'
  end.
Proof. reflexivity. Qed.

Lemma rstrip_no_trailing (ch : ascii) (s : string) :
  endswith_char ch (rstrip ch s) = false.
Proof.
  induction s as [|c s IH]; [done|].
  rewrite rstrip_cons. destruct (rstrip ch s) as [|c' r'] eqn:E.
  - destruct (Ascii.eqb c ch) eqn:Ec; simpl; [done|by rewrite Ec].
  - done.
Qed.

Lemma rstrip_repeat_char (ch : ascii) (k : nat) :
  rstrip ch (repeat_char ch k) = EmptyString.
Proof.
  induction k as [|k IH]; [done|].
  simpl. by rewrite IH, Ascii.eqb_refl.
Qed.

Lemma rstrip_app_repeat (ch : ascii) (s : string) (k : nat) :
  rstrip ch (s +:+ repeat_char ch k) = rstrip ch s.
Proof.
  induction s as [|c s IH].
  - rewrite app_nil_l. apply rstrip_repeat_char.
  - by rewrite app_cons, !rstrip_cons, IH.
Qed.

Lemma rstrip_decompose (ch : ascii) (s : string) :
  exists k, s = rstrip ch s +:+ repeat_char ch k.
Proof.
  induction s as [|c s [k IH]]; [by exists 0%nat|].
  rewrite rstrip_cons. destruct (rstrip ch s) as [|c' r'] eqn:E.
  - destruct (Ascii.eqb_spec c ch) as [->|].
    + exists (S k). rewrite app_nil_l in *. simpl. by f_equal.
    + exists k. rewrite app_cons. by f_equal.
  - exists k. rewrite app_cons. by f_equal.
Qed.

(** The POST of each mediator operation goes to its own URL. *)
Lemma enhance_image_posts env self path model options t :
  exists new,
    snd (run (enhance_image env self path model options) t) = t ++ new
    /\ (posted_urls new = [] \/ posted_urls new = [enhance_url self]).
Proof.
  unfold enhance_image. unfold_monad.
  destruct (env_read env t path) as [e|image_bytes]; simpl.
  { destruct (is_Exception (exn_cls e)); simpl; eexists;
      (split; [by rewrite <- ?app_assoc|by left]). }
  match goal with |- context [env_post env ?t0 ?u ?p ?to] =>
    destruct (env_post env t0 u p to) as [e|r] end; simpl.
  { destruct (is_Exception (exn_cls e)); simpl; eexists;
      (split; [by rewrite <- !app_assoc|by right]). }
  destruct (status_code r =? 200); simpl.
  - destruct (json r) as [e|d]; simpl.
    + destruct (is_Exception (exn_cls e)); simpl; eexists;
        (split; [by rewrite <- !app_assoc|by right]).
    + eexists; (split; [by rewrite <- !app_assoc|by right]).
  - eexists; (split; [by rewrite <- !app_assoc|by right]).
Qed.

Lemma classify_image_posts env self path t :
  exists new,
    snd (run (classify_image env self path) t) = t ++ new
    /\ (posted_urls new = [] \/ posted_urls new = [classify_url self]).
Proof.
  unfold classify_image. unfold_monad.
  destruct (env_read env t path) as [e|image_bytes]; simpl.
  { destruct (is_Exception (exn_cls e)); simpl; eexists; (split; [done|by left]). }
  match goal with |- context [env_post env ?t0 ?u ?p ?to] =>
    destruct (env_post env t0 u p to) as [e|r] end; simpl.
  { destruct (is_Exception (exn_cls e)); simpl; eexists;
      (split; [by rewrite <- !app_assoc|by right]). }
  destruct (status_code r =? 200); simpl.
  - destruct (json r) as [e|d]; simpl.
    + destruct (is_Exception (exn_cls e)); simpl; eexists;
        (split; [by rewrite <- !app_assoc|by right]).
    + eexists; (split; [by rewrite <- !app_assoc|by right]).
  - eexists; (split; [by rewrite <- !app_assoc|by right]).
Qed.

Lemma _admin_command_posts env self command args t :
  snd (run (_admin_command env self command args) t) =
  t ++ [EvPost (admin_url self) (admin_payload self command args) 60].
Proof.
  unfold _admin_command. unfold_monad.
  match goal with |- context [env_post env ?t0 ?u ?p ?to] =>
    destruct (env_post env t0 u p to) as [e|r] end; simpl.
  { by destruct (is_Exception (exn_cls e)). }
  destruct (status_code r =? 200); simpl; [|done].
  destruct (json r) as [e|d]; simpl; [|done].
  by destruct (is_Exception (exn_cls e)).
Qed.

(** C9: the stored base URL is the given one with every trailing slash
    removed, so it never ends in a slash; each request URL is the stored
    base, one slash, and [api/...]; and base URLs that differ only in
    trailing slashes give the same SDK, hence the same request URLs. *)
Theorem base_url_rstrip (environ : gmap string string) (base : string)
    (key : option string) :
  let self := init environ base key in
  endswith_char "/" (base_url self) = false
  /\ (exists k, base = base_url self +:+ repeat_char "/" k)
  /\ (forall k, init environ (base +:+ repeat_char "/" k) key = self)
  /\ enhance_url self = base_url self +:+ "/" +:+ "api/enhance"
  /\ classify_url self = base_url self +:+ "/" +:+ "api/classify"
  /\ admin_url self = base_url self +:+ "/" +:+ "api/admin"
  /\ (forall env path model options t, exists new,
        snd (run (enhance_image env self path model options) t) = t ++ new
        /\ (posted_urls new = [] \/ posted_urls new = [enhance_url self]))
  /\ (forall env path t, exists new,
        snd (run (classify_image env self path) t) = t ++ new
        /\ (posted_urls new = [] \/ posted_urls new = [classify_url self]))
  /\ (forall env command args t, exists new,
        snd (run (_admin_command env self command args) t) = t ++ new
        /\ posted_urls new = [admin_url self])
  /\ enhance_url (init environ "http://host/" key) = "http://host/api/enhance"
  /\ enhance_url (init environ "http://host" key) = "http://host/api/enhance".
Proof.
  simpl. split; [apply rstrip_no_trailing|].
  split; [apply rstrip_decompose|].
  split; [intros k; unfold init; by rewrite rstrip_app_repeat|].
  do 3 (split; [done|]).
  split; [intros; apply enhance_image_posts|].
  split; [intros; apply classify_image_posts|].
  split; [|done].
  intros. eexists. split; [apply _admin_command_posts|done].
Qed.

(** ** The admin key *)

(** C10: an explicit admin key that is [None] or the empty string is
    ignored in favour of the [ADMIN_KEY] environment value or, when that
    variable is unset, of 'dev-admin-key'; a non-empty explicit key is
    stored as it is; and the stored key is the [adminKey] of the payload
    that [_admin_command] posts. *)
Theorem admin_key_fallback (environ : gmap string string) (base : string) :
  (forall key, key = None \/ key = Some EmptyString ->
     admin_key (init environ base key) =
     match environ !! "ADMIN_KEY" with
     | Some v => v
     | None => "dev-admin-key"
     end)
  /\ (forall k, k <> EmptyString -> admin_key (init environ base (Some k)) = k)
  /\ (forall env key command args t,
        let self := init environ base key in
        posted_payloads (snd (run (_admin_command env self command args) t)) =
          posted_payloads t ++ [admin_payload self command args]
        /\ admin_payload self command args !! "adminKey" =
             Some (VStr (admin_key self))).
Proof.
  split; [|split].
  - by intros key [-> | ->].
  - intros [|c k] Hk; done.
  - intros env key command args t. simpl. split; [|done].
    rewrite _admin_command_posts. unfold posted_payloads.
    by rewrite omap_app.
Qed.

Lemma admin_key_fallback_witness :
  admin_key (init ∅ "http://host" (Some EmptyString)) = "dev-admin-key"
  /\ admin_key (init {[ "ADMIN_KEY" := "from-env" ]} "http://host" None) = "from-env"
  /\ admin_key (init {[ "ADMIN_KEY" := "from-env" ]} "http://host" (Some "s3cret"))
     = "s3cret".
Proof.
  destruct (admin_key_fallback ∅ "http://host") as (Hdefault & _ & _).
  destruct (admin_key_fallback {[ "ADMIN_KEY" := "from-env" ]} "http://host")
    as (Henv & Hexplicit & _).
  split; [|split].
  - apply (Hdefault (Some EmptyString)). by right.
  - apply (Henv None). by left.
  - apply (Hexplicit "s3cret"). discriminate.
Defined.

Lemma mediator_never_raises_witness :
  raises_only_Exception demo_env
  /\ exists d t',
       run (enhance_image demo_env (demo_sdk "http://slow") "photo.jpg"
              "nightmareai/real-esrgan" None) [] = (Ret d, t')
       /\ failure_or_parsed_body demo_env (enhance_url (demo_sdk "http://slow")) d.
Proof.
  split; [exact demo_env_raises_only_Exception|].
  apply (mediator_never_raises demo_env (demo_sdk "http://slow") []
           demo_env_raises_only_Exception).
Defined.

(** ** Saving the enhanced image *)

(** C4: when the result has no ['enhancedImage'] field,
    [save_enhanced_image] logs the error and returns [False]; it adds
    nothing else to the trace, so no GET (and no other request, and no
    write) is attempted. *)
Theorem save_without_enhancedImage (env : Env) (self : ImageEnhancerSDK)
    (result : Dict) (output_path : string) (t : list event) :
  has_key "enhancedImage" result = false ->
  run (save_enhanced_image env self (VDict result) output_path) t =
    (Ret false, t ++ [EvLog ERROR "No enhanced image in result"])
  /\ count_events is_get
       (snd (run (save_enhanced_image env self (VDict result) output_path) t)) =
     count_events is_get t.
Proof.
  intros Hkey.
  assert (Hrun : run (save_enhanced_image env self (VDict result) output_path) t =
                 (Ret false, t ++ [EvLog ERROR "No enhanced image in result"])).
  { unfold save_enhanced_image, py_in. unfold_monad. simpl.
    by rewrite Hkey. }
  split; [done|]. rewrite Hrun. simpl.
  unfold count_events. rewrite filter_app, length_app. simpl. lia.
Qed.

Lemma save_without_enhancedImage_witness :
  run (save_enhanced_image demo_env (demo_sdk "http://host")
         (VDict {[ "status" := VStr "queued" ]}) "out.jpg") [] =
    (Ret false, [EvLog ERROR "No enhanced image in result"]).
Proof.
  apply (save_without_enhancedImage demo_env (demo_sdk "http://host")
           {[ "status" := VStr "queued" ]} "out.jpg" []).
  reflexivity.
Defined.



(** ** The batch *)

Lemma count_events_app (P : event -> bool) (a b : list event) :
  count_events P (a ++ b) = (count_events P a + count_events P b)%nat.
Proof. unfold count_events. by rewrite filter_app, length_app. Qed.

Lemma paces_app (a b : list event) : paces (a ++ b) = paces a ++ paces b.
Proof. apply omap_app. Qed.

(** A call of [enhance_image] returns, having opened its file and slept
    not at all. *)
Lemma enhance_image_returns env self path model options t :
  raises_only_Exception env ->
  exists d new,
    run (enhance_image env self path model options) t = (Ret d, t ++ new)
    /\ paces new = [Started path]
    /\ count_events is_sleep new = 0%nat.
Proof.
  intros [Hread Hpost Hjson _ _]. unfold enhance_image. unfold_monad.
  destruct (env_read env t path) as [e|image_bytes] eqn:Er; simpl.
  { rewrite (Hread _ _ _ Er). eexists _, _.
    split; [by rewrite <- ?app_assoc|done]. }
  match goal with |- context [env_post env ?t0 ?u ?p ?to] =>
    destruct (env_post env t0 u p to) as [e|r] eqn:Ep end; simpl.
  { rewrite (Hpost _ _ _ _ _ Ep). eexists _, _.
    split; [by rewrite <- ?app_assoc|done]. }
  destruct (status_code r =? 200); simpl.
  - destruct (json r) as [e|d] eqn:Ej; simpl.
    + rewrite (Hjson _ _ _ _ _ _ Ep Ej). eexists _, _.
      split; [by rewrite <- ?app_assoc|done].
    + eexists _, _. split; [by rewrite <- ?app_assoc|done].
  - eexists _, _. split; [by rewrite <- ?app_assoc|done].
Qed.

Lemma expected_pace_cons (path : string) (rest : list string) :
  expected_pace (path :: rest) =
  Started path ::
    (if Z.of_nat (length rest) >? 0 then [Paused 1] else []) ++ expected_pace rest.
Proof. by destruct rest. Qed.

(** The loop from index [i] on, when [n] is the length of the whole list. *)
Lemma batch_loop_spec env self model options n :
  raises_only_Exception env ->
  forall paths i results t,
    n = i + Z.of_nat (length paths) ->
    exists rs new,
      run (batch_loop env self model options n i paths results) t =
        (Ret (results ++ rs), t ++ new)
      /\ map image_path rs = paths
      /\ Forall (enhanced_by env self model options) rs
      /\ paces new = expected_pace paths
      /\ count_events is_sleep new = Nat.pred (length paths)
      /\ batch_steps env self model options n i t paths rs (t ++ new).
Proof.
  intros Henv paths. induction paths as [|path rest IH]; intros i results t Hn.
  { exists [], []. rewrite !app_nil_r. repeat split; try done. constructor. }
  destruct (enhance_image_returns env self path model options
              (t ++ [EvLog INFO ("Processing image " +:+ str_of_Z (i + 1) +:+ "/"
                                   +:+ str_of_Z n +:+ ": " +:+ path)]) Henv)
    as (d & new1 & Hrun1 & Hpace1 & Hsleep1).
  set (item := {| image_path := path; result := d |}).
  set (line := EvLog INFO ("Processing image " +:+ str_of_Z (i + 1) +:+ "/"
                             +:+ str_of_Z n +:+ ": " +:+ path)) in *.
  set (pause := if i <? n - 1 then [EvSleep 1] else []).
  destruct (IH (i + 1) (results ++ [item]) (((t ++ [line]) ++ new1) ++ pause))
    as (rs & new2 & Hrun2 & Hpaths & Hres & Hpace2 & Hsleep2 & Hsteps2).
  { simpl length in Hn. lia. }
  exists (item :: rs), ([line] ++ new1 ++ pause ++ new2).
  split; [|split; [|split; [|split; [|split]]]].
  - simpl batch_loop. unfold_monad. simpl. fold line. rewrite Hrun1.
    fold item. subst pause.
    destruct (i <? n - 1); simpl.
    + rewrite Hrun2. by rewrite <- !app_assoc.
    + rewrite app_nil_r in Hrun2. rewrite Hrun2. by rewrite <- !app_assoc.
  - simpl. by f_equal.
  - constructor; [|done]. by eexists _, _.
  - rewrite !paces_app, Hpace1, Hpace2, expected_pace_cons. simpl.
    f_equal. f_equal. subst pause. simpl length in Hn.
    destruct (Z.ltb_spec i (n - 1)), (Z.gtb_spec (Z.of_nat (length rest)) 0);
      (done || lia).
  - rewrite !count_events_app, Hsleep1, Hsleep2. subst pause.
    simpl length in Hn. simpl.
    destruct (Z.ltb_spec i (n - 1)); destruct rest; simpl in *; (done || lia).
  - replace (t ++ [line] ++ new1 ++ pause ++ new2)
      with ((((t ++ [line]) ++ new1) ++ pause) ++ new2)
      by by rewrite <- !app_assoc.
    by eapply batch_steps_cons.
Qed.

Lemma batch_enhance_spec env self paths model options max_concurrent t :
  raises_only_Exception env ->
  let start := EvLog INFO ("Starting batch enhancement of "
                 +:+ str_of_Z (Z.of_nat (length paths)) +:+ " images") in
  exists rs mid,
    run (batch_enhance env self paths model options max_concurrent) t =
      (Ret rs, t ++ [start] ++ mid ++ [EvLog INFO "Batch enhancement completed"])
    /\ map image_path rs = paths
    /\ Forall (enhanced_by env self model options) rs
    /\ paces mid = expected_pace paths
    /\ count_events is_sleep mid = Nat.pred (length paths)
    /\ batch_steps env self model options (Z.of_nat (length paths)) 0
         (t ++ [start]) paths rs ((t ++ [start]) ++ mid).
Proof.
  intros Henv start.
  destruct (batch_loop_spec env self model options (Z.of_nat (length paths))
              Henv paths 0 [] (t ++ [start]))
    as (rs & mid & Hrun & Hpaths & Hres & Hpace & Hsleep & Hsteps); [lia|].
  exists rs, mid.
  split; [|by repeat split].
  unfold batch_enhance. unfold_monad. simpl. fold start. rewrite Hrun.
  simpl. by rewrite <- !app_assoc.
Qed.

(** C6: for every input list, [batch_enhance] returns one item per path,
    in input order, each holding its path and the result that the call of
    [enhance_image] made for it in this batch returned ([batch_steps]);
    the files are started in that order with a pause of one second
    between two consecutive ones and none after the last, so a batch of N
    items sleeps max(N-1, 0) times. *)
Theorem batch_enhance_items_and_pauses (env : Env) (self : ImageEnhancerSDK)
    (paths : list string) (model : string) (options : option Dict)
    (max_concurrent : Z) (t : list event) :
  raises_only_Exception env ->
  exists rs new,
    run (batch_enhance env self paths model options max_concurrent) t =
      (Ret rs, t ++ new)
    /\ length rs = length paths
    /\ map image_path rs = paths
    /\ Forall (enhanced_by env self model options) rs
    /\ paces new = expected_pace paths
    /\ Z.of_nat (count_events is_sleep new) =
       Z.max (Z.of_nat (length paths) - 1) 0
    /\ exists start mid,
         start = EvLog INFO ("Starting batch enhancement of "
                   +:+ str_of_Z (Z.of_nat (length paths)) +:+ " images")
         /\ new = [start] ++ mid ++ [EvLog INFO "Batch enhancement completed"]
         /\ batch_steps env self model options (Z.of_nat (length paths)) 0
              (t ++ [start]) paths rs ((t ++ [start]) ++ mid).
Proof.
  intros Henv.
  destruct (batch_enhance_spec env self paths model options max_concurrent t Henv)
    as (rs & mid & Hrun & Hpaths & Hres & Hpace & Hsleep & Hsteps).
  eexists rs, _. split; [exact Hrun|].
  split; [by rewrite <- Hpaths, length_map|].
  split; [done|]. split; [done|].
  split; [rewrite !paces_app, Hpace; simpl; by rewrite app_nil_r|].
  split.
  - rewrite !count_events_app, Hsleep.
    match goal with |- context [count_events is_sleep [?ev]] =>
      change (count_events is_sleep [ev]) with 0%nat end.
    change (count_events is_sleep [EvLog INFO "Batch enhancement completed"])
      with 0%nat.
    lia.
  - by eexists _, mid.
Qed.

Lemma batch_enhance_items_and_pauses_witness :
  exists rs new,
    run (batch_enhance demo_env (demo_sdk "http://host")
           ["a.jpg"; "missing.jpg"; "c.jpg"] "nightmareai/real-esrgan" None 3) [] =
      (Ret rs, [] ++ new)
    /\ length rs = 3%nat
    /\ map image_path rs = ["a.jpg"; "missing.jpg"; "c.jpg"]
    /\ Forall (enhanced_by demo_env (demo_sdk "http://host")
                 "nightmareai/real-esrgan" None) rs
    /\ paces new = [Started "a.jpg"; Paused 1; Started "missing.jpg"; Paused 1;
                    Started "c.jpg"]
    /\ Z.of_nat (count_events is_sleep new) = 2
    /\ exists start mid,
         start = EvLog INFO ("Starting batch enhancement of "
                   +:+ str_of_Z 3 +:+ " images")
         /\ new = [start] ++ mid ++ [EvLog INFO "Batch enhancement completed"]
         /\ batch_steps demo_env (demo_sdk "http://host")
              "nightmareai/real-esrgan" None 3 0
              ([] ++ [start]) ["a.jpg"; "missing.jpg"; "c.jpg"] rs
              (([] ++ [start]) ++ mid).
Proof.
  apply (batch_enhance_items_and_pauses demo_env (demo_sdk "http://host")
           ["a.jpg"; "missing.jpg"; "c.jpg"] "nightmareai/real-esrgan" None 3 []
           demo_env_raises_only_Exception).
Defined.

(** C8: the [max_concurrent] argument has no influence: for any two values
    of it, [batch_enhance] gives the same outcome and the same trace of
    effects, which is that of the sequential loop. *)
Theorem max_concurrent_unused (env : Env) (self : ImageEnhancerSDK)
    (paths : list string) (model : string) (options : option Dict)
    (max_concurrent max_concurrent' : Z) (t : list event) :
  run (batch_enhance env self paths model options max_concurrent) t =
  run (batch_enhance env self paths model options max_concurrent') t
  /\ run (batch_enhance env self paths model options max_concurrent) t =
     run (logger INFO ("Starting batch enhancement of "
                         +:+ str_of_Z (Z.of_nat (length paths)) +:+ " images");;
          results ← batch_loop env self model options
                      (Z.of_nat (length paths)) 0 paths [];
          logger INFO "Batch enhancement completed";;
          mret results) t.
Proof. split; reflexivity. Qed.

(** ** The tally of [main] *)

(** [save_enhanced_image] returns a boolean, whatever happens. *)
Lemma save_enhanced_image_returns env self result output_path t :
  raises_only_Exception env ->
  exists saved t',
    run (save_enhanced_image env self result output_path) t = (Ret saved, t').
Proof.
  intros [_ _ _ Hget Hwrite].
  unfold_save I.
  destruct result as [| | | |s|l|d]; simpl; try by eexists _, _.
  { destruct (contains "enhancedImage" s); simpl; by eexists _, _. }
  { destruct (existsb (is_str "enhancedImage") l); simpl; by eexists _, _. }
  destruct (d !! "enhancedImage") as [enhanced|]; simpl; [|by eexists _, _].
  destruct enhanced as [| | | |enhanced_url| |]; simpl; try by eexists _, _.
  destruct (startswith "data:" enhanced_url).
  - destruct (split_first ","%char enhanced_url) as [[header data]|]; simpl;
      [|by eexists _, _].
    destruct (Base64.b64decode data) as [[]|image_data]; simpl;
      [by eexists _, _..|].
    destruct (env_write env t output_path image_data) as [e|] eqn:Ew; simpl;
      [|by eexists _, _].
    rewrite (Hwrite _ _ _ _ Ew). by eexists _, _.
  - destruct (env_get env t enhanced_url) as [e|r] eqn:Eg; simpl.
    { rewrite (Hget _ _ _ Eg). by eexists _, _. }
    destruct (status_code r =? 200); simpl; [|by eexists _, _].
    match goal with |- context [env_write env ?t0 ?p ?d] =>
      destruct (env_write env t0 p d) as [e|] eqn:Ew end; simpl;
      [|by eexists _, _].
    rewrite (Hwrite _ _ _ _ Ew). by eexists _, _.
Qed.

(** It logs one line at level INFO when it returns [True], and none when
    it returns [False]. *)
Lemma save_enhanced_image_info_logs env self result output_path t :
  raises_only_Exception env ->
  exists saved new,
    run (save_enhanced_image env self result output_path) t = (Ret saved, t ++ new)
    /\ count_events is_info_log new = if saved then 1%nat else 0%nat.
Proof.
  intros [_ _ _ Hget Hwrite].
  unfold_save I.
  destruct result as [| | | |s|l|d]; simpl;
    try (eexists _, _; split; [by rewrite <- ?app_assoc|done]).
  { destruct (contains "enhancedImage" s); simpl;
      (eexists _, _; split; [by rewrite <- ?app_assoc|done]). }
  { destruct (existsb (is_str "enhancedImage") l); simpl;
      (eexists _, _; split; [by rewrite <- ?app_assoc|done]). }
  destruct (d !! "enhancedImage") as [enhanced|]; simpl;
    [|eexists _, _; split; [by rewrite <- ?app_assoc|done]].
  destruct enhanced as [| | | |enhanced_url| |]; simpl;
    try (eexists _, _; split; [by rewrite <- ?app_assoc|done]).
  destruct (startswith "data:" enhanced_url).
  - destruct (split_first ","%char enhanced_url) as [[header data]|]; simpl;
      [|eexists _, _; split; [by rewrite <- ?app_assoc|done]].
    destruct (Base64.b64decode data) as [[]|image_data]; simpl;
      [eexists _, _; (split; [by rewrite <- ?app_assoc|done])..|].
    destruct (env_write env t output_path image_data) as [e|] eqn:Ew; simpl;
      [|eexists _, _; split; [by rewrite <- ?app_assoc|done]].
    rewrite (Hwrite _ _ _ _ Ew).
    eexists _, _; split; [by rewrite <- ?app_assoc|done].
  - destruct (env_get env t enhanced_url) as [e|r] eqn:Eg; simpl.
    { rewrite (Hget _ _ _ Eg).
      eexists _, _; split; [by rewrite <- ?app_assoc|done]. }
    destruct (status_code r =? 200); simpl;
      [|eexists _, _; split; [by rewrite <- ?app_assoc|done]].
    match goal with |- context [env_write env ?t0 ?p ?d] =>
      destruct (env_write env t0 p d) as [e|] eqn:Ew end; simpl;
      [|eexists _, _; split; [by rewrite <- ?app_assoc|done]].
    rewrite (Hwrite _ _ _ _ Ew).
    eexists _, _; split; [by rewrite <- ?app_assoc|done].
Qed.

(** When the server keeps to its contract, what [enhance_image] returns is
    a dict. *)
Lemma enhance_image_returns_dict env self path model options t v t' :
  raises_only_Exception env ->
  bodies_are_objects env ->
  run (enhance_image env self path model options) t = (Ret v, t') ->
  exists d, v = VDict d.
Proof.
  intros [Hread Hpost Hjson _ _] Hobj. unfold enhance_image. unfold_monad.
  destruct (env_read env t path) as [e|image_bytes] eqn:Er; simpl.
  { rewrite (Hread _ _ _ Er). intros [= <- _]. by eexists. }
  match goal with |- context [env_post env ?t0 ?u ?p ?to] =>
    destruct (env_post env t0 u p to) as [e|r] eqn:Ep end; simpl.
  { rewrite (Hpost _ _ _ _ _ Ep). intros [= <- _]. by eexists. }
  destruct (Z.eqb_spec (status_code r) 200) as [E200|]; simpl.
  - destruct (json r) as [e|body] eqn:Ej; simpl.
    + rewrite (Hjson _ _ _ _ _ _ Ep Ej). intros [= <- _]. by eexists.
    + intros [= <- _]. by eapply Hobj.
  - intros [= <- _]. by eexists.
Qed.

Lemma count_failures_cons (item : BatchItem) (rs : list BatchItem) :
  count_failures (item :: rs) =
  ((if is_failure (result item) then 1 else 0) + count_failures rs)%nat.
Proof.
  unfold count_failures. rewrite filter_cons.
  destruct (is_failure (result item)) eqn:E.
  - by rewrite decide_True.
  - by rewrite decide_False.
Qed.

Lemma count_failures_le (rs : list BatchItem) :
  (count_failures rs <= length rs)%nat.
Proof.
  induction rs as [|item rs IH]; [done|].
  rewrite count_failures_cons. simpl. destruct (is_failure (result item)); lia.
Qed.

Lemma count_saved_cons (saved : bool) (flags : list bool) :
  count_saved (saved :: flags) = (if saved then 1 else 0) + count_saved flags.
Proof.
  unfold count_saved. rewrite filter_cons. destruct saved.
  - rewrite decide_True by done. simpl length. lia.
  - rewrite decide_False by done. lia.
Qed.

(** The loop of the tally goes through the items as [tally_steps] says and
    adds, to the count so far, the number of items it saved. *)
Lemma tally_loop_spec env self output_path_of :
  raises_only_Exception env ->
  forall rs successful t,
    Forall (fun item => exists d, result item = VDict d) rs ->
    exists flags new,
      run (tally_loop env self output_path_of rs successful) t =
        (Ret (successful + count_saved flags), t ++ new)
      /\ tally_steps env self output_path_of t rs flags (t ++ new)
      /\ Z.of_nat (count_events is_info_log new) = count_saved flags
      /\ 0 <= count_saved flags
         <= Z.of_nat (length rs) - Z.of_nat (count_failures rs)
      /\ (all_saved env self output_path_of rs ->
          count_saved flags =
          Z.of_nat (length rs) - Z.of_nat (count_failures rs)).
Proof.
  intros Henv rs. induction rs as [|item rs IH]; intros successful t Hdict.
  { exists [], []. rewrite app_nil_r. change (count_saved []) with 0.
    change (count_failures []) with 0%nat. simpl length.
    split; [by rewrite Z.add_0_r|]. split; [constructor|].
    split; [done|]. split; [lia|intros _; lia]. }
  pose proof (count_failures_le rs) as Hle.
  apply Forall_cons in Hdict as [[d Hd] Hdict].
  rewrite count_failures_cons. simpl length.
  destruct (has_key "error" d) eqn:Efail.
  - assert (Hin : py_in "error" (result item) = inr true) by by rewrite Hd; simpl; rewrite Efail.
    assert (Hf : is_failure (result item) = true) by by rewrite Hd.
    destruct (IH successful t Hdict)
      as (flags & new & Hrun & Hsteps & Hinfo & Hbound & Hall).
    exists (false :: flags), new. rewrite count_saved_cons, Hf.
    split; [|split; [|split; [|split]]].
    + simpl tally_loop. unfold_monad. rewrite Hin. simpl. exact Hrun.
    + by constructor.
    + lia.
    + lia.
    + intros Hsaved. rewrite Hall; [lia|].
      intros item' t0 Hin'. apply Hsaved. by right.
  - assert (Hin : py_in "error" (result item) = inr false) by by rewrite Hd; simpl; rewrite Efail.
    assert (Hf : is_failure (result item) = false) by by rewrite Hd.
    destruct (save_enhanced_image_info_logs env self (result item)
                (output_path_of (image_path item)) t Henv)
      as (saved & new1 & Hsave & Hinfo1).
    destruct (IH (if saved then successful + 1 else successful) (t ++ new1) Hdict)
      as (flags & new2 & Hrun & Hsteps & Hinfo & Hbound & Hall).
    exists (saved :: flags), (new1 ++ new2). rewrite count_saved_cons, Hf.
    rewrite app_assoc.
    split; [|split; [|split; [|split]]].
    + simpl tally_loop. unfold_monad. rewrite Hin. simpl. rewrite Hsave.
      rewrite Hrun. f_equal. f_equal. destruct saved; lia.
    + by eapply tally_steps_tried.
    + rewrite count_events_app, Nat2Z.inj_add, Hinfo, Hinfo1.
      by destruct saved.
    + destruct saved; lia.
    + intros Hsaved.
      assert (saved = true) as ->.
      { specialize (Hsaved item t (list_elem_of_here _ _) Hf).
        rewrite Hsave in Hsaved. simpl in Hsaved. congruence. }
      rewrite Hall; [lia|].
      intros item' t0 Hin'. apply Hsaved. by right.
Qed.

(** The failures among the results are those of the failing paths. *)
Lemma count_failures_failing env self model options fails rs :
  failing_paths env self model options fails ->
  Forall (enhanced_by env self model options) rs ->
  count_failures rs = count_failing fails (map image_path rs).
Proof.
  intros Hfails Hres. induction Hres as [|item rs (t0 & t1 & Hrun) _ IH]; [done|].
  rewrite count_failures_cons, IH. unfold count_failing. simpl map.
  rewrite filter_cons. rewrite (Hfails _ _ _ _ Hrun).
  destruct (fails (image_path item)) eqn:E.
  - by rewrite decide_True.
  - by rewrite decide_False.
Qed.

Lemma count_failing_le (fails : string -> bool) (paths : list string) :
  (count_failing fails paths <= length paths)%nat.
Proof. apply length_filter. Qed.

(** C3, as the code has it: for a list of N paths of which K produce a
    failing result, [batch_enhance] returns N items in input order with
    exactly K failures.  When the list is not empty and every parsed 200
    body is a JSON object, [main] then goes through the items as
    [tally_steps] says and prints "S/N", where S is the number of items
    that are not failures and whose image [save_enhanced_image] saved
    (the number of "Enhanced image saved to" lines logged meanwhile); S is
    at most N-K, and is N-K when each of these saves succeeds.  For an
    empty list [main] prints that no image file was found. *)
Theorem batch_counts_and_tally (env : Env) (self : ImageEnhancerSDK)
    (input_dir : string) (output_path_of : string -> string)
    (paths : list string) (model : string) (scale : Z)
    (fails : string -> bool) (t : list event) :
  raises_only_Exception env ->
  bodies_are_objects env ->
  failing_paths env self model (Some {[ "scale" := VInt scale ]}) fails ->
  let N := Z.of_nat (length paths) in
  let K := Z.of_nat (count_failing fails paths) in
  exists rs t1,
    run (batch_enhance env self paths model
           (Some {[ "scale" := VInt scale ]}) 3) t = (Ret rs, t1)
    /\ Z.of_nat (length rs) = N
    /\ map image_path rs = paths
    /\ Z.of_nat (count_failures rs) = K
    /\ (paths = [] ->
        run (main_batch env self input_dir output_path_of paths model scale) t =
        (Ret None, t ++ [EvPrint ("No image files found in " +:+ input_dir)]))
    /\ (paths <> [] ->
        exists flags new,
          tally_steps env self output_path_of t1 rs flags (t1 ++ new)
          /\ run (main_batch env self input_dir output_path_of paths model scale) t =
             (Ret (Some (count_saved flags, N)),
              (t1 ++ new)
              ++ [EvPrint ("Batch processing completed: "
                             +:+ str_of_Z (count_saved flags) +:+ "/"
                             +:+ str_of_Z N +:+ " images enhanced")])
          /\ Z.of_nat (count_events is_info_log new) = count_saved flags
          /\ 0 <= count_saved flags <= N - K
          /\ (all_saved env self output_path_of rs -> count_saved flags = N - K)).
Proof.
  intros Henv Hobj Hfails N K.
  destruct (batch_enhance_spec env self paths model
              (Some {[ "scale" := VInt scale ]}) 3 t Henv)
    as (rs & mid & Hrun & Hpaths & Hres & _ & _ & _).
  match type of Hrun with _ = (_, ?t1) => set (t1' := t1) in * end.
  assert (Hdict : Forall (fun item => exists d, result item = VDict d) rs).
  { eapply Forall_impl; [exact Hres|].
    intros item (t0 & t2 & Hitem). by eapply enhance_image_returns_dict. }
  destruct (tally_loop_spec env self output_path_of Henv rs 0 t1' Hdict)
    as (flags & new & Htally & Hsteps & Hinfo & Hbound & Hall).
  assert (Hlen : length rs = length paths) by by rewrite <- Hpaths, length_map.
  assert (HK : count_failures rs = count_failing fails paths).
  { rewrite <- Hpaths. by eapply count_failures_failing. }
  exists rs, t1'.
  split; [done|]. split; [subst N; lia|]. split; [done|].
  split; [subst K; lia|]. split.
  - by intros ->.
  - intros Hne. exists flags, new.
    split; [done|]. split; [|split; [done|split]].
    + unfold main_batch. destruct paths as [|path rest]; [done|].
      unfold_monad. rewrite Hrun, Htally.
      simpl. rewrite Z.add_0_l. by rewrite Hlen.
    + subst N K. lia.
    + intros Hsaved. subst N K. rewrite (Hall Hsaved). lia.
Qed.

(** In the demo environment [enhance_image] fails on [missing.jpg] only,
    for the hosts that answer 200. *)
Lemma demo_failing_paths (base model : string) (options : option Dict) :
  base = "http://empty" \/ base = "http://host" ->
  failing_paths demo_env (demo_sdk base) model options
    (fun path => String.eqb path "missing.jpg").
Proof.
  intros Hbase t path d t'. unfold enhance_image. unfold_monad. simpl.
  unfold demo_read. destruct (String.eqb path "missing.jpg"); simpl.
  { intros [= <- _]. done. }
  destruct Hbase as [-> | ->]; simpl; intros [= <- _]; done.
Qed.

(** The bodies of its 200 responses are JSON objects. *)
Lemma demo_bodies_are_objects : bodies_are_objects demo_env.
Proof.
  intros t url payload timeout r v. simpl. unfold demo_post.
  repeat case_match; intros [= <-]; simpl; try done;
    intros _ [= <-]; by eexists.
Qed.

(** C3 fails as stated: with one readable file and a server that answers
    200 with an object that has no ['enhancedImage'], no result is a
    failure (N = 1, K = 0), yet the tally is 0/1, not 1/1. *)
Lemma tally_counts_saved_images_only :
  ~ (forall env self input_dir output_path_of paths model scale fails t,
       raises_only_Exception env ->
       bodies_are_objects env ->
       failing_paths env self model (Some {[ "scale" := VInt scale ]}) fails ->
       paths <> [] ->
       fst (run (main_batch env self input_dir output_path_of paths model scale) t) =
       Ret (Some (Z.of_nat (length paths) - Z.of_nat (count_failing fails paths),
                  Z.of_nat (length paths)))).
Proof.
  intros H.
  specialize (H demo_env (demo_sdk "http://empty") "in"
                (fun path => "out/enhanced_" +:+ path) ["a.jpg"]
                "nightmareai/real-esrgan" 4
                (fun path => String.eqb path "missing.jpg") []
                demo_env_raises_only_Exception
                demo_bodies_are_objects
                (demo_failing_paths _ _ _ (or_introl eq_refl))
                ltac:(discriminate)).
  vm_compute in H. discriminate H.
Qed.

Lemma batch_counts_and_tally_witness :
  exists rs t1,
    run (batch_enhance demo_env (demo_sdk "http://host") ["a.jpg"; "missing.jpg"]
           "nightmareai/real-esrgan" (Some {[ "scale" := VInt 4 ]}) 3) [] =
      (Ret rs, t1)
    /\ Z.of_nat (length rs) = 2
    /\ map image_path rs = ["a.jpg"; "missing.jpg"]
    /\ Z.of_nat (count_failures rs) = 1
    /\ exists flags new,
         tally_steps demo_env (demo_sdk "http://host")
           (fun path => "out/enhanced_" +:+ path) t1 rs flags (t1 ++ new)
         /\ run (main_batch demo_env (demo_sdk "http://host") "in"
                   (fun path => "out/enhanced_" +:+ path) ["a.jpg"; "missing.jpg"]
                   "nightmareai/real-esrgan" 4) [] =
            (Ret (Some (count_saved flags, 2)),
             (t1 ++ new)
             ++ [EvPrint ("Batch processing completed: "
                            +:+ str_of_Z (count_saved flags) +:+ "/"
                            +:+ str_of_Z 2 +:+ " images enhanced")])
         /\ Z.of_nat (count_events is_info_log new) = count_saved flags
         /\ 0 <= count_saved flags <= 2 - 1
         /\ (all_saved demo_env (demo_sdk "http://host")
               (fun path => "out/enhanced_" +:+ path) rs ->
             count_saved flags = 2 - 1).
Proof.
  destruct (batch_counts_and_tally demo_env (demo_sdk "http://host") "in"
              (fun path => "out/enhanced_" +:+ path) ["a.jpg"; "missing.jpg"]
              "nightmareai/real-esrgan" 4
              (fun path => String.eqb path "missing.jpg") []
              demo_env_raises_only_Exception
              demo_bodies_are_objects
              (demo_failing_paths _ _ _ (or_intror eq_refl)))
    as (rs & t1 & Hrun & Hlen & Hpaths & HK & _ & Htally).
  exists rs, t1. do 4 (split; [done|]).
  apply Htally. discriminate.
Defined.

(** * Further properties of the module *)

(** ** The outcomes of the mediator operations, case by case *)

Lemma enhance_image_unreadable env self path model options t e :
  env_read env t path = inl e ->
  is_Exception (exn_cls e) = true ->
  run (enhance_image env self path model options) t =
  (Ret (error_result ("Error enhancing image: " +:+ exn_str e)),
   t ++ [EvOpenRead path;
         EvLog ERROR ("Error enhancing image: " +:+ exn_str e)]).
Proof.
  intros Hread Hexc. unfold enhance_image. unfold_monad.
  rewrite Hread. simpl. rewrite Hexc. by rewrite <- app_assoc.
Qed.

Lemma classify_image_unreadable env self path t e :
  env_read env t path = inl e ->
  is_Exception (exn_cls e) = true ->
  run (classify_image env self path) t =
  (Ret (error_result ("Error classifying image: " +:+ exn_str e)),
   t ++ [EvOpenRead path]).
Proof.
  intros Hread Hexc. unfold classify_image. unfold_monad.
  rewrite Hread. simpl. by rewrite Hexc.
Qed.

(** X2: when the image file cannot be read, [enhance_image] and
    [classify_image] return a failure that carries the text of the
    exception, and send nothing to the server. *)
Theorem unreadable_file_sends_nothing (env : Env) (self : ImageEnhancerSDK)
    (path : string) (t : list event) (e : exn) :
  env_read env t path = inl e ->
  is_Exception (exn_cls e) = true ->
  (forall model options, exists new,
      run (enhance_image env self path model options) t =
        (Ret (error_result ("Error enhancing image: " +:+ exn_str e)), t ++ new)
      /\ no_network new = true)
  /\ (exists new,
        run (classify_image env self path) t =
          (Ret (error_result ("Error classifying image: " +:+ exn_str e)), t ++ new)
        /\ no_network new = true).
Proof.
  intros Hread Hexc. split.
  - intros model options. eexists.
    split; [by apply enhance_image_unreadable|done].
  - eexists. split; [by apply classify_image_unreadable|done].
Qed.

Lemma unreadable_file_sends_nothing_witness :
  exists new,
    run (classify_image demo_env (demo_sdk "http://host") "missing.jpg") [] =
      (Ret (error_result
              ("Error classifying image: "
                 +:+ "[Errno 2] No such file or directory: 'missing.jpg'")),
       [] ++ new)
    /\ no_network new = true.
Proof.
  apply (unreadable_file_sends_nothing demo_env (demo_sdk "http://host")
           "missing.jpg" []
           {| exn_cls := OSError;
              exn_str := "[Errno 2] No such file or directory: 'missing.jpg'" |});
    reflexivity.
Defined.

(** X1: on a 200 response whose body parses, each mediator operation
    returns the parsed body as it is (also when that body has an
    ['error'] key of its own). *)
Theorem success_returns_parsed_body (env : Env) (self : ImageEnhancerSDK)
    (t : list event) (r : Response) (d : value) :
  status_code r = 200 ->
  json r = inr d ->
  (forall path model options image_bytes,
     env_read env t path = inr image_bytes ->
     env_post env
       (t ++ [EvOpenRead path; EvLog INFO ("Enhancing image: " +:+ path)])
       (enhance_url self) (enhance_payload image_bytes model options) 300
       = inr r ->
     run (enhance_image env self path model options) t =
     (Ret d,
      t ++ [EvOpenRead path; EvLog INFO ("Enhancing image: " +:+ path);
            EvPost (enhance_url self)
              (enhance_payload image_bytes model options) 300;
            EvLog INFO "Image enhancement completed successfully"]))
  /\ (forall path image_bytes,
        env_read env t path = inr image_bytes ->
        env_post env (t ++ [EvOpenRead path]) (classify_url self)
          (classify_payload image_bytes) 60 = inr r ->
        run (classify_image env self path) t =
        (Ret d,
         t ++ [EvOpenRead path;
               EvPost (classify_url self) (classify_payload image_bytes) 60]))
  /\ (forall command args,
        env_post env t (admin_url self) (admin_payload self command args) 60
          = inr r ->
        run (_admin_command env self command args) t =
        (Ret d, t ++ [EvPost (admin_url self)
                        (admin_payload self command args) 60])).
Proof.
  intros Hstatus Hjson. split; [|split].
  - intros path model options image_bytes Hread Hpost.
    unfold enhance_image. unfold_monad. rewrite Hread. simpl.
    rewrite <- app_assoc. simpl.
    unfold enhance_payload in Hpost. rewrite Hpost. simpl.
    rewrite Hstatus, Hjson. simpl. by rewrite <- !app_assoc.
  - intros path image_bytes Hread Hpost.
    unfold classify_image. unfold_monad. rewrite Hread. simpl.
    unfold classify_payload in Hpost. rewrite Hpost. simpl.
    rewrite Hstatus, Hjson. simpl. by rewrite <- !app_assoc.
  - intros command args Hpost.
    unfold _admin_command. unfold_monad.
    unfold admin_payload in Hpost. rewrite Hpost. simpl.
    by rewrite Hstatus, Hjson.
Qed.

Lemma success_returns_parsed_body_witness :
  run (_admin_command demo_env (demo_sdk "http://empty") "status" None) [] =
  (Ret (VDict ∅),
   [] ++ [EvPost (admin_url (demo_sdk "http://empty"))
            (admin_payload (demo_sdk "http://empty") "status" None) 60]).
Proof.
  destruct (success_returns_parsed_body demo_env (demo_sdk "http://empty") []
              {| status_code := 200; text := "{}"; json := inr (VDict ∅);
                 content := [] |}
              (VDict ∅) eq_refl eq_refl) as (_ & _ & Hadmin).
  apply (Hadmin "status" None). reflexivity.
Defined.

(** X3: when the POST itself fails (connection error, timeout), each
    mediator operation returns a failure that carries the text of the
    exception; the request was attempted once and is not repeated. *)
Theorem transport_error_is_failure (env : Env) (self : ImageEnhancerSDK)
    (t : list event) (e : exn) :
  is_Exception (exn_cls e) = true ->
  (forall path model options image_bytes,
     env_read env t path = inr image_bytes ->
     env_post env
       (t ++ [EvOpenRead path; EvLog INFO ("Enhancing image: " +:+ path)])
       (enhance_url self) (enhance_payload image_bytes model options) 300
       = inl e ->
     run (enhance_image env self path model options) t =
     (Ret (error_result ("Error enhancing image: " +:+ exn_str e)),
      t ++ [EvOpenRead path; EvLog INFO ("Enhancing image: " +:+ path);
            EvPost (enhance_url self)
              (enhance_payload image_bytes model options) 300;
            EvLog ERROR ("Error enhancing image: " +:+ exn_str e)]))
  /\ (forall path image_bytes,
        env_read env t path = inr image_bytes ->
        env_post env (t ++ [EvOpenRead path]) (classify_url self)
          (classify_payload image_bytes) 60 = inl e ->
        run (classify_image env self path) t =
        (Ret (error_result ("Error classifying image: " +:+ exn_str e)),
         t ++ [EvOpenRead path;
               EvPost (classify_url self) (classify_payload image_bytes) 60]))
  /\ (forall command args,
        env_post env t (admin_url self) (admin_payload self command args) 60
          = inl e ->
        run (_admin_command env self command args) t =
        (Ret (error_result ("Error executing admin command: " +:+ exn_str e)),
         t ++ [EvPost (admin_url self) (admin_payload self command args) 60])).
Proof.
  intros Hexc. split; [|split].
  - intros path model options image_bytes Hread Hpost.
    unfold enhance_image. unfold_monad. rewrite Hread. simpl.
    rewrite <- app_assoc. simpl.
    unfold enhance_payload in Hpost. rewrite Hpost. simpl.
    rewrite Hexc. by rewrite <- !app_assoc.
  - intros path image_bytes Hread Hpost.
    unfold classify_image. unfold_monad. rewrite Hread. simpl.
    unfold classify_payload in Hpost. rewrite Hpost. simpl.
    rewrite Hexc. by rewrite <- !app_assoc.
  - intros command args Hpost.
    unfold _admin_command. unfold_monad.
    unfold admin_payload in Hpost. rewrite Hpost. simpl.
    by rewrite Hexc.
Qed.

Lemma transport_error_is_failure_witness :
  run (_admin_command demo_env (demo_sdk "http://slow") "health" None) [] =
  (Ret (error_result ("Error executing admin command: "
                        +:+ "Read timed out. (read timeout=300)")),
   [] ++ [EvPost (admin_url (demo_sdk "http://slow"))
            (admin_payload (demo_sdk "http://slow") "health" None) 60]).
Proof.
  destruct (transport_error_is_failure demo_env (demo_sdk "http://slow") []
              {| exn_cls := Timeout;
                 exn_str := "Read timed out. (read timeout=300)" |} eq_refl)
    as (_ & _ & Hadmin).
  apply (Hadmin "health" None). reflexivity.
Defined.

(** X4: a 200 response whose body is not JSON is a failure too: the
    exception of [response.json()] is caught, and its text, not the status
    code, is what the message carries. *)
Theorem unparsable_body_is_failure (env : Env) (self : ImageEnhancerSDK)
    (t : list event) (r : Response) (e : exn) :
  status_code r = 200 ->
  json r = inl e ->
  is_Exception (exn_cls e) = true ->
  (forall path model options image_bytes,
     env_read env t path = inr image_bytes ->
     env_post env
       (t ++ [EvOpenRead path; EvLog INFO ("Enhancing image: " +:+ path)])
       (enhance_url self) (enhance_payload image_bytes model options) 300
       = inr r ->
     fst (run (enhance_image env self path model options) t) =
     Ret (error_result ("Error enhancing image: " +:+ exn_str e)))
  /\ (forall path image_bytes,
        env_read env t path = inr image_bytes ->
        env_post env (t ++ [EvOpenRead path]) (classify_url self)
          (classify_payload image_bytes) 60 = inr r ->
        fst (run (classify_image env self path) t) =
        Ret (error_result ("Error classifying image: " +:+ exn_str e)))
  /\ (forall command args,
        env_post env t (admin_url self) (admin_payload self command args) 60
          = inr r ->
        fst (run (_admin_command env self command args) t) =
        Ret (error_result ("Error executing admin command: " +:+ exn_str e))).
Proof.
  intros Hstatus Hjson Hexc. split; [|split].
  - intros path model options image_bytes Hread Hpost.
    unfold enhance_image. unfold_monad. rewrite Hread. simpl.
    rewrite <- app_assoc. simpl.
    unfold enhance_payload in Hpost. rewrite Hpost. simpl.
    rewrite Hstatus, Hjson. simpl. by rewrite Hexc.
  - intros path image_bytes Hread Hpost.
    unfold classify_image. unfold_monad. rewrite Hread. simpl.
    unfold classify_payload in Hpost. rewrite Hpost. simpl.
    rewrite Hstatus, Hjson. simpl. by rewrite Hexc.
  - intros command args Hpost.
    unfold _admin_command. unfold_monad.
    unfold admin_payload in Hpost. rewrite Hpost. simpl.
    rewrite Hstatus, Hjson. simpl. by rewrite Hexc.
Qed.

Lemma unparsable_body_is_failure_witness :
  fst (run (_admin_command html_env (demo_sdk "http://host") "status" None) []) =
  Ret (error_result ("Error executing admin command: "
                       +:+ "Expecting value: line 1 column 1 (char 0)")).
Proof.
  destruct (unparsable_body_is_failure html_env (demo_sdk "http://host") []
              html_response
              {| exn_cls := JSONDecodeError;
                 exn_str := "Expecting value: line 1 column 1 (char 0)" |}
              eq_refl eq_refl eq_refl) as (_ & _ & Hadmin).
  apply (Hadmin "status" None). reflexivity.
Defined.

(** ** What the mediator operations send *)

Lemma enhance_image_effects env self path model options t :
  exists new,
    snd (run (enhance_image env self path model options) t) = t ++ new
    /\ only_reads_logs_posts new = true
    /\ (posts new = []
        \/ exists image_bytes,
             posts new =
             [(enhance_url self, enhance_payload image_bytes model options, 300)]).
Proof.
  unfold enhance_image. unfold_monad.
  destruct (env_read env t path) as [e|image_bytes]; simpl.
  { destruct (is_Exception (exn_cls e)); simpl; eexists;
      (split; [by rewrite <- ?app_assoc|split; [done|by left]]). }
  match goal with |- context [env_post env ?t0 ?u ?p ?to] =>
    destruct (env_post env t0 u p to) as [e|r] end; simpl.
  { destruct (is_Exception (exn_cls e)); simpl; eexists;
      (split; [by rewrite <- ?app_assoc|split; [done|right; by eexists]]). }
  destruct (status_code r =? 200); simpl.
  - destruct (json r) as [e|d]; simpl.
    + destruct (is_Exception (exn_cls e)); simpl; eexists;
        (split; [by rewrite <- ?app_assoc|split; [done|right; by eexists]]).
    + eexists; (split; [by rewrite <- ?app_assoc|split; [done|right; by eexists]]).
  - eexists; (split; [by rewrite <- ?app_assoc|split; [done|right; by eexists]]).
Qed.

Lemma classify_image_effects env self path t :
  exists new,
    snd (run (classify_image env self path) t) = t ++ new
    /\ only_reads_logs_posts new = true
    /\ (posts new = []
        \/ exists image_bytes,
             posts new = [(classify_url self, classify_payload image_bytes, 60)]).
Proof.
  unfold classify_image. unfold_monad.
  destruct (env_read env t path) as [e|image_bytes]; simpl.
  { destruct (is_Exception (exn_cls e)); simpl; eexists;
      (split; [by rewrite <- ?app_assoc|split; [done|by left]]). }
  match goal with |- context [env_post env ?t0 ?u ?p ?to] =>
    destruct (env_post env t0 u p to) as [e|r] end; simpl.
  { destruct (is_Exception (exn_cls e)); simpl; eexists;
      (split; [by rewrite <- ?app_assoc|split; [done|right; by eexists]]). }
  destruct (status_code r =? 200); simpl.
  - destruct (json r) as [e|d]; simpl.
    + destruct (is_Exception (exn_cls e)); simpl; eexists;
        (split; [by rewrite <- ?app_assoc|split; [done|right; by eexists]]).
    + eexists; (split; [by rewrite <- ?app_assoc|split; [done|right; by eexists]]).
  - eexists; (split; [by rewrite <- ?app_assoc|split; [done|right; by eexists]]).
Qed.

(** X5: whatever the environment does, a mediator operation sends at most
    one POST (to its own URL, with its own timeout: 300 seconds for
    [enhance_image], 60 for the others) and never retries; besides that it
    only opens the image file and logs.  The payloads of [enhance_image]
    and [classify_image] never carry the admin key. *)
Theorem mediator_sends_at_most_one_request (env : Env)
    (self : ImageEnhancerSDK) (t : list event) :
  (forall path model options, exists new,
      snd (run (enhance_image env self path model options) t) = t ++ new
      /\ only_reads_logs_posts new = true
      /\ (posts new = []
          \/ exists image_bytes,
               posts new =
               [(enhance_url self, enhance_payload image_bytes model options, 300)]
               /\ enhance_payload image_bytes model options !! "adminKey" = None))
  /\ (forall path, exists new,
        snd (run (classify_image env self path) t) = t ++ new
        /\ only_reads_logs_posts new = true
        /\ (posts new = []
            \/ exists image_bytes,
                 posts new = [(classify_url self, classify_payload image_bytes, 60)]
                 /\ classify_payload image_bytes !! "adminKey" = None))
  /\ (forall command args,
        snd (run (_admin_command env self command args) t) =
        t ++ [EvPost (admin_url self) (admin_payload self command args) 60]).
Proof.
  split; [|split].
  - intros path model options.
    destruct (enhance_image_effects env self path model options t)
      as (new & Hrun & Hquiet & [Hnone | [image_bytes Hone]]);
      exists new; (split; [done|split; [done|]]); [by left|].
    right. exists image_bytes. split; [done|]. by simplify_map_eq.
  - intros path.
    destruct (classify_image_effects env self path t)
      as (new & Hrun & Hquiet & [Hnone | [image_bytes Hone]]);
      exists new; (split; [done|split; [done|]]); [by left|].
    right. exists image_bytes. split; [done|]. by simplify_map_eq.
  - intros command args. apply _admin_command_posts.
Qed.

(** X6: when the file is readable, the request that [enhance_image] (or
    [classify_image]) sends carries the image as a data URI from which the
    decoding of [save_enhanced_image] recovers exactly the bytes of the
    file. *)
Theorem request_carries_the_image (env : Env) (self : ImageEnhancerSDK)
    (path : string) (t : list event) (image_bytes : list byte) :
  env_read env t path = inr image_bytes ->
  (forall model options, exists payload rest data_uri,
      snd (run (enhance_image env self path model options) t) =
        t ++ [EvOpenRead path; EvLog INFO ("Enhancing image: " +:+ path);
              EvPost (enhance_url self) payload 300] ++ rest
      /\ payload !! "image" = Some (VStr data_uri)
      /\ payload !! "model" = Some (VStr model)
      /\ payload !! "options" = Some (VDict (dict_or_empty options))
      /\ startswith "data:" data_uri = true
      /\ forall t0, run (split_and_decode data_uri) t0 = (Ret image_bytes, t0))
  /\ (exists payload rest data_uri,
        snd (run (classify_image env self path) t) =
          t ++ [EvOpenRead path; EvPost (classify_url self) payload 60] ++ rest
        /\ payload !! "image" = Some (VStr data_uri)
        /\ startswith "data:" data_uri = true
        /\ forall t0, run (split_and_decode data_uri) t0 = (Ret image_bytes, t0)).
Proof.
  intros Hread.
  assert (Hdecode : forall t0,
            run (split_and_decode (encode_data_url image_bytes)) t0 =
            (Ret image_bytes, t0)).
  { intros t0. unfold run, split_and_decode.
    by rewrite split_first_data_url, b64decode_b64encode. }
  split.
  - intros model options.
    exists (enhance_payload image_bytes model options).
    assert (Htrace : exists rest,
              snd (run (enhance_image env self path model options) t) =
              t ++ [EvOpenRead path; EvLog INFO ("Enhancing image: " +:+ path);
                    EvPost (enhance_url self)
                      (enhance_payload image_bytes model options) 300] ++ rest).
    { unfold enhance_image. unfold_monad. rewrite Hread. simpl.
      match goal with |- context [env_post env ?t0 ?u ?p ?to] =>
        destruct (env_post env t0 u p to) as [e|r] end; simpl.
      { destruct (is_Exception (exn_cls e)); simpl; eexists;
          by rewrite <- ?app_assoc. }
      destruct (status_code r =? 200); simpl.
      - destruct (json r) as [e|d]; simpl.
        + destruct (is_Exception (exn_cls e)); simpl; eexists;
            by rewrite <- ?app_assoc.
        + eexists; by rewrite <- ?app_assoc.
      - eexists; by rewrite <- ?app_assoc. }
    destruct Htrace as [rest Htrace].
    exists rest, (encode_data_url image_bytes).
    split; [done|]. unfold enhance_payload.
    repeat split; try done; by simplify_map_eq.
  - exists (classify_payload image_bytes).
    assert (Htrace : exists rest,
              snd (run (classify_image env self path) t) =
              t ++ [EvOpenRead path;
                    EvPost (classify_url self) (classify_payload image_bytes) 60]
                ++ rest).
    { unfold classify_image. unfold_monad. rewrite Hread. simpl.
      match goal with |- context [env_post env ?t0 ?u ?p ?to] =>
        destruct (env_post env t0 u p to) as [e|r] end; simpl.
      { destruct (is_Exception (exn_cls e)); simpl; eexists;
          by rewrite <- ?app_assoc. }
      destruct (status_code r =? 200); simpl.
      - destruct (json r) as [e|d]; simpl.
        + destruct (is_Exception (exn_cls e)); simpl; eexists;
            by rewrite <- ?app_assoc.
        + eexists; by rewrite <- ?app_assoc.
      - eexists; by rewrite <- ?app_assoc. }
    destruct Htrace as [rest Htrace].
    exists rest, (encode_data_url image_bytes).
    split; [done|]. unfold classify_payload.
    repeat split; try done; by simplify_map_eq.
Qed.

Lemma request_carries_the_image_witness :
  exists payload rest data_uri,
    snd (run (classify_image demo_env (demo_sdk "http://host") "photo.jpg") []) =
      [] ++ [EvOpenRead "photo.jpg";
             EvPost (classify_url (demo_sdk "http://host")) payload 60] ++ rest
    /\ payload !! "image" = Some (VStr data_uri)
    /\ startswith "data:" data_uri = true
    /\ forall t0, run (split_and_decode data_uri) t0 = (Ret [xff; xd8; xff], t0).
Proof.
  apply (request_carries_the_image demo_env (demo_sdk "http://host")
           "photo.jpg" [] [xff; xd8; xff]).
  reflexivity.
Defined.

(** ** More on saving *)

Lemma split_first_at_comma (header data : string) :
  has_char ","%char header = false ->
  split_first ","%char (header +:+ String ","%char data) = Some (header, data).
Proof.
  induction header as [|c header IH]; intros Hno.
  - reflexivity.
  - simpl in Hno. apply orb_false_elim in Hno as [Hc Hno].
    rewrite app_cons. simpl. by rewrite Hc, IH.
Qed.

Lemma prefix_app_l (p s x : string) :
  String.prefix p s = true -> String.prefix p (s +:+ x) = true.
Proof.
  revert s. induction p as [|c p IH]; intros s H.
  - by destruct (s +:+ x).
  - destruct s as [|c' s]; [done|]. rewrite app_cons. simpl in *.
    destruct (ascii_dec c c'); [by apply IH|done].
Qed.

(** X8: given a result whose ['enhancedImage'] is a data URI (any header
    that starts with "data:" and has no comma, whatever media type it
    names) followed by the base64 of some bytes, [save_enhanced_image]
    writes exactly these bytes to the output path and returns [True];
    when the write fails it returns [False] and logs the exception. *)
Theorem save_writes_decoded_bytes (env : Env) (self : ImageEnhancerSDK)
    (result : Dict) (output_path : string) (t : list event)
    (header : string) (bs : list byte) :
  startswith "data:" header = true ->
  has_char ","%char header = false ->
  result !! "enhancedImage" =
    Some (VStr (header +:+ String ","%char (Base64.b64encode bs))) ->
  (env_write env t output_path bs = None ->
   run (save_enhanced_image env self (VDict result) output_path) t =
   (Ret true,
    t ++ [EvWrite output_path bs;
          EvLog INFO ("Enhanced image saved to: " +:+ output_path)]))
  /\ (forall e,
        env_write env t output_path bs = Some e ->
        is_Exception (exn_cls e) = true ->
        run (save_enhanced_image env self (VDict result) output_path) t =
        (Ret false,
         t ++ [EvWrite output_path bs;
               EvLog ERROR ("Error saving enhanced image: " +:+ exn_str e)])).
Proof.
  intros Hdata Hcomma Hfield.
  assert (Hstart : startswith "data:"
                     (header +:+ String ","%char (Base64.b64encode bs)) = true)
    by by apply prefix_app_l.
  split.
  - intros Hwrite.
    unfold_save Hfield. rewrite Hstart, split_first_at_comma,
      b64decode_b64encode by done. simpl. rewrite Hwrite. simpl.
    by rewrite <- app_assoc.
  - intros e Hwrite Hexc.
    unfold_save Hfield. rewrite Hstart, split_first_at_comma,
      b64decode_b64encode by done. simpl. rewrite Hwrite. simpl. rewrite Hexc.
    by rewrite <- app_assoc.
Qed.

Lemma save_writes_decoded_bytes_witness :
  run (save_enhanced_image demo_env (demo_sdk "http://host")
         (VDict {[ "enhancedImage" := VStr "data:image/png;base64,iVBORw==" ]})
         "out.png") [] =
    (Ret true,
     [] ++ [EvWrite "out.png" [x89; x50; x4e; x47];
            EvLog INFO ("Enhanced image saved to: " +:+ "out.png")])
  /\ run (save_enhanced_image demo_env (demo_sdk "http://host")
            (VDict {[ "enhancedImage" := VStr "data:image/png;base64,iVBORw==" ]})
            "/readonly/out.jpg") [] =
     (Ret false,
      [] ++ [EvWrite "/readonly/out.jpg" [x89; x50; x4e; x47];
             EvLog ERROR ("Error saving enhanced image: "
                            +:+ "[Errno 30] Read-only file system")]).
Proof.
  split.
  - destruct (save_writes_decoded_bytes demo_env (demo_sdk "http://host")
                {[ "enhancedImage" := VStr "data:image/png;base64,iVBORw==" ]}
                "out.png" [] "data:image/png;base64" [x89; x50; x4e; x47]
                eq_refl eq_refl ltac:(apply lookup_singleton_eq)) as [Hok _].
    apply Hok. reflexivity.
  - destruct (save_writes_decoded_bytes demo_env (demo_sdk "http://host")
                {[ "enhancedImage" := VStr "data:image/png;base64,iVBORw==" ]}
                "/readonly/out.jpg" [] "data:image/png;base64"
                [x89; x50; x4e; x47]
                eq_refl eq_refl ltac:(apply lookup_singleton_eq)) as [_ Hfail].
    apply (Hfail {| exn_cls := OSError;
                    exn_str := "[Errno 30] Read-only file system" |});
      reflexivity.
Defined.

(** X10: a result whose ['enhancedImage'] is not usable makes
    [save_enhanced_image] return [False] after one error line, with no
    request and no write: a value that is not a string, a "data:" value
    without a comma, and a "data:" value whose part after the comma is
    not valid base64. *)
Theorem save_rejects_malformed (env : Env) (self : ImageEnhancerSDK)
    (result : Dict) (output_path : string) (t : list event) (enhanced : value) :
  result !! "enhancedImage" = Some enhanced ->
  ((forall s, enhanced <> VStr s) ->
   exists msg,
     run (save_enhanced_image env self (VDict result) output_path) t =
     (Ret false, t ++ [EvLog ERROR msg]))
  /\ (forall s,
        enhanced = VStr s ->
        startswith "data:" s = true ->
        split_first ","%char s = None ->
        exists msg,
          run (save_enhanced_image env self (VDict result) output_path) t =
          (Ret false, t ++ [EvLog ERROR msg]))
  /\ (forall s header data err,
        enhanced = VStr s ->
        startswith "data:" s = true ->
        split_first ","%char s = Some (header, data) ->
        Base64.b64decode data = inl err ->
        exists msg,
          run (save_enhanced_image env self (VDict result) output_path) t =
          (Ret false, t ++ [EvLog ERROR msg])).
Proof.
  intros Hfield. split; [|split].
  - intros Hnot.
    unfold_save Hfield.
    destruct enhanced; try by eexists. by destruct (Hnot s).
  - intros s -> Hdata Hsplit.
    unfold_save Hfield. rewrite Hdata, Hsplit. by eexists.
  - intros s header data err -> Hdata Hsplit Hdecode.
    unfold_save Hfield. rewrite Hdata, Hsplit, Hdecode.
    destruct err; by eexists.
Qed.

Lemma save_rejects_malformed_witness :
  (exists msg,
     run (save_enhanced_image demo_env (demo_sdk "http://host")
            (VDict {[ "enhancedImage" := VNone ]}) "out.jpg") [] =
     (Ret false, [] ++ [EvLog ERROR msg]))
  /\ (exists msg,
        run (save_enhanced_image demo_env (demo_sdk "http://host")
               (VDict {[ "enhancedImage" := VStr "data:image/png;base64" ]}) "out.jpg") [] =
        (Ret false, [] ++ [EvLog ERROR msg]))
  /\ (exists msg,
        run (save_enhanced_image demo_env (demo_sdk "http://host")
               (VDict {[ "enhancedImage" := VStr "data:image/png;base64,TQ=" ]})
               "out.jpg") [] =
        (Ret false, [] ++ [EvLog ERROR msg])).
Proof.
  split; [|split].
  - destruct (save_rejects_malformed demo_env (demo_sdk "http://host")
                {[ "enhancedImage" := VNone ]} "out.jpg" [] VNone
                ltac:(apply lookup_singleton_eq)) as (Hnone & _ & _).
    apply Hnone. discriminate.
  - destruct (save_rejects_malformed demo_env (demo_sdk "http://host")
                {[ "enhancedImage" := VStr "data:image/png;base64" ]} "out.jpg" []
                (VStr "data:image/png;base64")
                ltac:(apply lookup_singleton_eq)) as (_ & Hcomma & _).
    apply (Hcomma "data:image/png;base64"); reflexivity.
  - destruct (save_rejects_malformed demo_env (demo_sdk "http://host")
                {[ "enhancedImage" := VStr "data:image/png;base64,TQ=" ]}
                "out.jpg" [] (VStr "data:image/png;base64,TQ=")
                ltac:(apply lookup_singleton_eq)) as (_ & _ & Hpad).
    apply (Hpad "data:image/png;base64,TQ=" "data:image/png;base64" "TQ="
             Base64.IncorrectPadding); reflexivity.
Defined.

(** X9: whatever the environment does, [save_enhanced_image] sends no
    POST, at most one GET and writes at most once; and when it returns
    [True], one write to the output path has happened, followed by the
    line that reports it. *)
Theorem save_true_means_written (env : Env) (self : ImageEnhancerSDK)
    (result : value) (output_path : string) (t : list event) :
  exists new,
    snd (run (save_enhanced_image env self result output_path) t) = t ++ new
    /\ posts new = []
    /\ (length (gets new) <= 1)%nat
    /\ (length (writes new) <= 1)%nat
    /\ (fst (run (save_enhanced_image env self result output_path) t) = Ret true ->
        exists before data,
          new = before ++ [EvWrite output_path data;
                           EvLog INFO ("Enhanced image saved to: " +:+ output_path)]
          /\ writes new = [(output_path, data)]).
Proof.
  unfold_save I.
  destruct result as [| | | |s|l|d]; simpl; try save_leaf.
  { destruct (contains "enhancedImage" s); simpl; save_leaf. }
  { destruct (existsb (is_str "enhancedImage") l); simpl; save_leaf. }
  destruct (d !! "enhancedImage") as [enhanced|]; simpl; [|save_leaf].
  destruct enhanced as [| | | |enhanced_url| |]; simpl; try save_leaf.
  destruct (startswith "data:" enhanced_url).
  - destruct (split_first ","%char enhanced_url) as [[header data]|]; simpl;
      [|save_leaf].
    destruct (Base64.b64decode data) as [[]|image_data]; simpl;
      [save_leaf..|].
    destruct (env_write env t output_path image_data) as [e|]; simpl.
    + destruct (is_Exception (exn_cls e)); simpl; save_leaf.
    + eexists; split; [by rewrite <- ?app_assoc|].
      repeat split; try done; try (simpl; lia).
      intros _. by exists [], image_data.
  - destruct (env_get env t enhanced_url) as [e|r]; simpl.
    { destruct (is_Exception (exn_cls e)); simpl; save_leaf. }
    destruct (status_code r =? 200); simpl; [|save_leaf].
    match goal with |- context [env_write env ?t0 ?p ?d] =>
      destruct (env_write env t0 p d) as [e|] end; simpl.
    + destruct (is_Exception (exn_cls e)); simpl; save_leaf.
    + eexists; split; [by rewrite <- ?app_assoc|].
      repeat split; try done; try (simpl; lia).
      intros _. by exists [EvGet enhanced_url], (content r).
Qed.

Lemma save_true_means_written_witness :
  exists new,
    snd (run (save_enhanced_image demo_env (demo_sdk "http://host")
                (VDict {[ "enhancedImage" := VStr "http://cdn/ok.png" ]})
                "out.png") []) =
      [] ++ new
    /\ posts new = []
    /\ (length (gets new) <= 1)%nat
    /\ (length (writes new) <= 1)%nat
    /\ exists before data,
         new = before ++ [EvWrite "out.png" data;
                          EvLog INFO ("Enhanced image saved to: " +:+ "out.png")]
         /\ writes new = [("out.png", data)].
Proof.
  destruct (save_true_means_written demo_env (demo_sdk "http://host")
              (VDict {[ "enhancedImage" := VStr "http://cdn/ok.png" ]})
              "out.png" [])
    as (new & Hrun & Hposts & Hgets & Hwrites & Htrue).
  exists new. repeat split; try done.
  apply Htrue. reflexivity.
Defined.

(** ** More on the batch *)

Lemma posts_app (a b : list event) : posts (a ++ b) = posts a ++ posts b.
Proof. apply omap_app. Qed.

Lemma only_reads_logs_posts_batch (l : list event) :
  only_reads_logs_posts l = true -> forallb is_batch_event l = true.
Proof.
  induction l as [|ev l IH]; [done|]. simpl.
  intros [Hev Hl]%andb_prop. rewrite IH by done.
  by destruct ev.
Qed.

Lemma enhance_image_batch_effects env self path model options t :
  exists new,
    snd (run (enhance_image env self path model options) t) = t ++ new
    /\ forallb is_batch_event new = true
    /\ (length (posts new) <= 1)%nat
    /\ posts_go_to (enhance_url self) 300 (posts new) = true.
Proof.
  destruct (enhance_image_effects env self path model options t)
    as (new & Hrun & Hquiet & Hposts).
  exists new. split; [done|]. split; [by apply only_reads_logs_posts_batch|].
  destruct Hposts as [-> | [image_bytes ->]]; simpl; [split; [lia|done]|].
  split; [lia|]. by rewrite String.eqb_refl.
Qed.

Lemma batch_loop_effects env self model options n :
  forall paths i results t,
    exists new,
      snd (run (batch_loop env self model options n i paths results) t) = t ++ new
      /\ forallb is_batch_event new = true
      /\ (length (posts new) <= length paths)%nat
      /\ posts_go_to (enhance_url self) 300 (posts new) = true.
Proof.
  intros paths. induction paths as [|path rest IH]; intros i results t.
  { exists []. by rewrite app_nil_r. }
  set (line := EvLog INFO ("Processing image " +:+ str_of_Z (i + 1) +:+ "/"
                             +:+ str_of_Z n +:+ ": " +:+ path)).
  destruct (enhance_image_batch_effects env self path model options (t ++ [line]))
    as (new1 & Hrun1 & Hev1 & Hlen1 & Hurl1).
  simpl batch_loop. unfold_monad. simpl. fold line.
  destruct (enhance_image env self path model options (t ++ [line]))
    as [[d|e] t1]; simpl in Hrun1; subst t1.
  - set (pause := if i <? n - 1 then [EvSleep 1] else []).
    destruct (IH (i + 1)
                (results ++ [{| image_path := path; result := d |}])
                (((t ++ [line]) ++ new1) ++ pause))
      as (new2 & Hrun2 & Hev2 & Hlen2 & Hurl2).
    exists ([line] ++ new1 ++ pause ++ new2).
    assert (Hpause : forallb is_batch_event pause = true /\ posts pause = []).
    { subst pause. by destruct (i <? n - 1). }
    destruct Hpause as [Hevp Hpp].
    split; [|split; [|split]].
    + subst pause. destruct (i <? n - 1); simpl.
      * rewrite Hrun2. by rewrite <- !app_assoc.
      * rewrite app_nil_r in Hrun2. rewrite Hrun2. by rewrite <- !app_assoc.
    + by rewrite !forallb_app, Hev1, Hevp, Hev2.
    + rewrite !posts_app, Hpp, !length_app. simpl. lia.
    + unfold posts_go_to in *. rewrite !posts_app, Hpp, !forallb_app.
      by rewrite Hurl1, Hurl2.
  - exists ([line] ++ new1). split; [by rewrite <- !app_assoc|].
    split; [by rewrite forallb_app, Hev1|].
    split; [rewrite posts_app; simpl; lia|].
    by rewrite posts_app.
Qed.

(** X11: whatever the environment does, a batch sends at most one POST per
    path, each to the enhance URL with the timeout of 300 seconds; apart
    from that it only opens files, logs and pauses for one second at a
    time: it never downloads, writes or prints. *)
Theorem batch_sends_one_request_per_path (env : Env) (self : ImageEnhancerSDK)
    (paths : list string) (model : string) (options : option Dict)
    (max_concurrent : Z) (t : list event) :
  exists new,
    snd (run (batch_enhance env self paths model options max_concurrent) t) =
      t ++ new
    /\ forallb is_batch_event new = true
    /\ (length (posts new) <= length paths)%nat
    /\ posts_go_to (enhance_url self) 300 (posts new) = true.
Proof.
  set (start := EvLog INFO ("Starting batch enhancement of "
                 +:+ str_of_Z (Z.of_nat (length paths)) +:+ " images")).
  destruct (batch_loop_effects env self model options
              (Z.of_nat (length paths)) paths 0 [] (t ++ [start]))
    as (new & Hrun & Hev & Hlen & Hurl).
  unfold batch_enhance. unfold_monad. simpl. fold start.
  destruct (batch_loop env self model options (Z.of_nat (length paths)) 0
              paths [] (t ++ [start])) as [[rs|e] t1]; simpl in Hrun; subst t1.
  - exists ([start] ++ new ++ [EvLog INFO "Batch enhancement completed"]).
    split; [by rewrite <- !app_assoc|].
    split; [by rewrite !forallb_app, Hev|].
    split; [rewrite !posts_app, !length_app; simpl; lia|].
    unfold posts_go_to in *. rewrite !posts_app, !forallb_app.
    by rewrite Hurl.
  - exists ([start] ++ new). split; [by rewrite <- !app_assoc|].
    split; [by rewrite forallb_app, Hev|].
    split; [rewrite posts_app; simpl; lia|]. by rewrite posts_app.
Qed.

(** X13: the tally skips failed entries without any effect: when every
    entry of the batch is a failure, nothing is saved, fetched or logged
    and the count stays as it was. *)
Theorem tally_skips_failures (env : Env) (self : ImageEnhancerSDK)
    (output_path_of : string -> string) (rs : list BatchItem)
    (successful : Z) (t : list event) :
  Forall (fun item => is_failure (result item) = true) rs ->
  run (tally_loop env self output_path_of rs successful) t = (Ret successful, t).
Proof.
  intros Hall. induction Hall as [|item rs Hfail _ IH]; [done|].
  simpl tally_loop. unfold_monad.
  destruct (result item) as [| | | | | |d]; try done.
  simpl in *. by rewrite Hfail.
Qed.

Lemma tally_skips_failures_witness :
  run (tally_loop demo_env (demo_sdk "http://host")
         (fun path => "out/enhanced_" +:+ path)
         [{| image_path := "a.jpg"; result := error_result "Enhancement failed: 503 - " |};
          {| image_path := "b.jpg";
             result := VDict {[ "error" := VStr "quota exceeded";
                                "enhancedImage" := VStr "http://cdn/ok.png" ]} |}]
         0) [] = (Ret 0, []).
Proof.
  apply (tally_skips_failures demo_env (demo_sdk "http://host")).
  repeat constructor.
Defined.

Lemma batch_loop_unreadable env self model options n :
  forall paths i results t,
    all_unreadable env paths ->
    n = i + Z.of_nat (length paths) ->
    exists rs new,
      run (batch_loop env self model options n i paths results) t =
        (Ret (results ++ rs), t ++ new)
      /\ map image_path rs = paths
      /\ Forall (fun item => is_failure (result item) = true) rs
      /\ posts new = []
      /\ count_events is_sleep new = Nat.pred (length paths).
Proof.
  intros paths. induction paths as [|path rest IH]; intros i results t Hall Hn.
  { exists [], []. by rewrite !app_nil_r. }
  set (line := EvLog INFO ("Processing image " +:+ str_of_Z (i + 1) +:+ "/"
                             +:+ str_of_Z n +:+ ": " +:+ path)).
  destruct (Hall (t ++ [line]) path (list_elem_of_here _ _)) as (e & Hread & Hexc).
  pose proof (enhance_image_unreadable env self path model options
                (t ++ [line]) e Hread Hexc) as Hrun1.
  set (msg := "Error enhancing image: " +:+ exn_str e) in *.
  set (item := {| image_path := path; result := error_result msg |}).
  set (pause := if i <? n - 1 then [EvSleep 1] else []).
  destruct (IH (i + 1) (results ++ [item])
              (((t ++ [line]) ++ [EvOpenRead path; EvLog ERROR msg]) ++ pause))
    as (rs & new2 & Hrun2 & Hpaths & Hfail & Hposts & Hsleep).
  { intros t0 p Hp. apply Hall. by right. }
  { simpl length in Hn. lia. }
  exists (item :: rs),
    ([line] ++ [EvOpenRead path; EvLog ERROR msg] ++ pause ++ new2).
  split; [|split; [|split; [|split]]].
  - simpl batch_loop. unfold_monad. simpl. fold line. rewrite Hrun1.
    fold item. subst pause. destruct (i <? n - 1); simpl.
    + rewrite Hrun2. by rewrite <- !app_assoc.
    + rewrite app_nil_r in Hrun2. rewrite Hrun2. by rewrite <- !app_assoc.
  - simpl. by f_equal.
  - by constructor.
  - rewrite !posts_app, Hposts. subst pause. by destruct (i <? n - 1).
  - rewrite !count_events_app, Hsleep. subst pause. simpl length in Hn.
    change (count_events is_sleep [line]) with 0%nat.
    change (count_events is_sleep [EvOpenRead path; EvLog ERROR msg]) with 0%nat.
    destruct (Z.ltb_spec i (n - 1)); destruct rest; simpl in *; (done || lia).
Qed.

(** X12: a batch whose files are all unreadable still runs to its end: it
    returns one failure per path, in order, pauses between the items as
    usual, and sends nothing to the server. *)
Theorem batch_of_unreadable_files (env : Env) (self : ImageEnhancerSDK)
    (paths : list string) (model : string) (options : option Dict)
    (max_concurrent : Z) (t : list event) :
  all_unreadable env paths ->
  exists rs new,
    run (batch_enhance env self paths model options max_concurrent) t =
      (Ret rs, t ++ new)
    /\ map image_path rs = paths
    /\ Forall (fun item => is_failure (result item) = true) rs
    /\ posts new = []
    /\ count_events is_sleep new = Nat.pred (length paths).
Proof.
  intros Hall.
  set (start := EvLog INFO ("Starting batch enhancement of "
                 +:+ str_of_Z (Z.of_nat (length paths)) +:+ " images")).
  destruct (batch_loop_unreadable env self model options
              (Z.of_nat (length paths)) paths 0 [] (t ++ [start]) Hall)
    as (rs & new & Hrun & Hpaths & Hfail & Hposts & Hsleep); [lia|].
  exists rs, ([start] ++ new ++ [EvLog INFO "Batch enhancement completed"]).
  split; [|split; [|split; [|split]]]; try done.
  - unfold batch_enhance. unfold_monad. simpl. fold start. rewrite Hrun.
    simpl. by rewrite <- !app_assoc.
  - by rewrite !posts_app, Hposts.
  - rewrite !count_events_app, Hsleep.
    change (count_events is_sleep [start]) with 0%nat.
    change (count_events is_sleep [EvLog INFO "Batch enhancement completed"])
      with 0%nat.
    lia.
Qed.

Lemma batch_of_unreadable_files_witness :
  exists rs new,
    run (batch_enhance demo_env (demo_sdk "http://host")
           ["missing.jpg"; "missing.jpg"] "nightmareai/real-esrgan" None 3) [] =
      (Ret rs, [] ++ new)
    /\ map image_path rs = ["missing.jpg"; "missing.jpg"]
    /\ Forall (fun item => is_failure (result item) = true) rs
    /\ posts new = []
    /\ count_events is_sleep new = 1%nat.
Proof.
  apply (batch_of_unreadable_files demo_env (demo_sdk "http://host")
           ["missing.jpg"; "missing.jpg"] "nightmareai/real-esrgan" None 3 []).
  intros t path Hin.
  exists {| exn_cls := OSError;
            exn_str := "[Errno 2] No such file or directory: 'missing.jpg'" |}.
  split; [|reflexivity].
  apply list_elem_of_In in Hin. simpl in Hin.
  destruct Hin as [<- | [<- | []]]; reflexivity.
Defined.

(** ** The [enhance] command *)

(** X14: when [enhance_image] returns a result with an ['error'] key, the
    [enhance] command prints that error and stops: it does not call
    [save_enhanced_image], so nothing is fetched and no output file is
    written. *)
Theorem enhance_command_stops_on_error (env : Env)
    (str_of_value : value -> string) (self : ImageEnhancerSDK)
    (input output model : string) (scale : Z) (t t1 : list event)
    (d : Dict) (error : value) :
  run (enhance_image env self input model (Some {[ "scale" := VInt scale ]})) t =
    (Ret (VDict d), t1) ->
  d !! "error" = Some error ->
  run (main_enhance env str_of_value self input output model scale) t =
    (Ret tt, t1 ++ [EvPrint ("Error: " +:+ str_of_value error)]).
Proof.
  intros Hrun Herror.
  unfold main_enhance, py_in, py_getitem, has_key, lift_answer. unfold_monad.
  rewrite Hrun. simpl. by rewrite Herror.
Qed.

Lemma enhance_command_stops_on_error_witness :
  run (main_enhance demo_env str_of_str_value (demo_sdk "http://down")
         "photo.jpg" "out.jpg" "nightmareai/real-esrgan" 4) [] =
  (Ret tt,
   [EvOpenRead "photo.jpg"; EvLog INFO "Enhancing image: photo.jpg";
    EvPost "http://down/api/enhance"
      (enhance_payload [xff; xd8; xff] "nightmareai/real-esrgan"
         (Some {[ "scale" := VInt 4 ]})) 300;
    EvLog ERROR "Enhancement failed: 503 - Service Unavailable"]
   ++ [EvPrint ("Error: "
                  +:+ str_of_str_value
                        (VStr "Enhancement failed: 503 - Service Unavailable"))]).
Proof.
  apply (enhance_command_stops_on_error demo_env str_of_str_value
           (demo_sdk "http://down") "photo.jpg" "out.jpg"
           "nightmareai/real-esrgan" 4 [] _
           {[ "error" := VStr "Enhancement failed: 503 - Service Unavailable" ]}).
  - reflexivity.
  - apply lookup_singleton_eq.
Defined.

(** X15: end to end, when the server answers 200 with the uploaded image
    sent back as ['enhancedImage'] (and no ['error']), the [enhance]
    command writes to the output path exactly the bytes of the input file
    and reports success. *)
Theorem enhance_command_copies_echoed_image (env : Env)
    (str_of_value : value -> string) (self : ImageEnhancerSDK)
    (input output model : string) (scale : Z) (t : list event)
    (image_bytes : list byte) (r : Response) (d : Dict) :
  let payload :=
    enhance_payload image_bytes model (Some {[ "scale" := VInt scale ]}) in
  let sent :=
    t ++ [EvOpenRead input; EvLog INFO ("Enhancing image: " +:+ input);
          EvPost (enhance_url self) payload 300;
          EvLog INFO "Image enhancement completed successfully"] in
  env_read env t input = inr image_bytes ->
  env_post env
    (t ++ [EvOpenRead input; EvLog INFO ("Enhancing image: " +:+ input)])
    (enhance_url self) payload 300 = inr r ->
  status_code r = 200 ->
  json r = inr (VDict d) ->
  d !! "error" = None ->
  d !! "enhancedImage" = Some (VStr (encode_data_url image_bytes)) ->
  env_write env sent output image_bytes = None ->
  run (main_enhance env str_of_value self input output model scale) t =
  (Ret tt,
   sent ++ [EvWrite output image_bytes;
            EvLog INFO ("Enhanced image saved to: " +:+ output);
            EvPrint ("Image enhanced successfully: " +:+ output)]).
Proof.
  intros payload sent Hread Hpost Hstatus Hjson Hnoerr Himage Hwrite.
  unfold main_enhance, enhance_image, py_in, py_getitem, has_key, lift_answer.
  unfold_monad.
  rewrite Hread. simpl. rewrite <- app_assoc. simpl.
  subst payload. unfold enhance_payload in Hpost. simpl in Hpost.
  rewrite Hpost. simpl.
  rewrite Hstatus, Hjson. simpl. rewrite Hnoerr. simpl.
  unfold_save Himage. rewrite app_nil_l, b64decode_b64encode. simpl.
  subst sent. unfold enhance_payload in *.
  rewrite <- !app_assoc in *. simpl in *.
  rewrite Hwrite. simpl.
  by rewrite <- !app_assoc.
Qed.

Lemma enhance_command_copies_echoed_image_witness :
  run (main_enhance echo_env str_of_str_value (demo_sdk "http://host")
         "photo.jpg" "copy.jpg" "nightmareai/real-esrgan" 4) [] =
  (Ret tt,
   ([] ++ [EvOpenRead "photo.jpg";
           EvLog INFO ("Enhancing image: " +:+ "photo.jpg");
           EvPost (enhance_url (demo_sdk "http://host"))
             (enhance_payload [xff; xd8; xff] "nightmareai/real-esrgan"
                (Some {[ "scale" := VInt 4 ]})) 300;
           EvLog INFO "Image enhancement completed successfully"])
   ++ [EvWrite "copy.jpg" [xff; xd8; xff];
       EvLog INFO ("Enhanced image saved to: " +:+ "copy.jpg");
       EvPrint ("Image enhanced successfully: " +:+ "copy.jpg")]).
Proof.
  apply (enhance_command_copies_echoed_image echo_env str_of_str_value
           (demo_sdk "http://host") "photo.jpg" "copy.jpg"
           "nightmareai/real-esrgan" 4 [] [xff; xd8; xff]
           {| status_code := 200; text := "";
              json := inr (VDict {[ "enhancedImage" :=
                                      VStr (encode_data_url [xff; xd8; xff]) ]});
              content := [] |}
           {[ "enhancedImage" := VStr (encode_data_url [xff; xd8; xff]) ]});
    reflexivity.
Defined.

(** ** The logger *)

(** X16: setting up the logger twice is the same as setting it up once:
    the level is INFO, a logger that had no handler gets exactly one, and
    a logger that already had handlers keeps them and gets none, so that
    creating several SDK instances never duplicates log lines. *)
Theorem _setup_logger_adds_one_handler (logger : logger_state) :
  _setup_logger (_setup_logger logger) = _setup_logger logger
  /\ logger_level (_setup_logger logger) = Some INFO
  /\ length (logger_handlers (_setup_logger logger)) =
     Nat.max 1 (length (logger_handlers logger))
  /\ exists added,
       logger_handlers (_setup_logger logger) = logger_handlers logger ++ added.
Proof.
  destruct logger as [level [|h handlers]]; simpl.
  - repeat split; try done. by eexists.
  - repeat split; try done. exists []. by rewrite app_nil_r.
Qed.

(** ** The named admin operations and the base URL *)

Lemma _admin_command_request env self command args t :
  exists payload,
    posts (snd (run (_admin_command env self command args) t)) =
      posts t ++ [(admin_url self, payload, 60)]
    /\ payload !! "command" = Some (VStr command)
    /\ payload !! "args" = Some (VDict (dict_or_empty args))
    /\ payload !! "adminKey" = Some (VStr (admin_key self)).
Proof.
  exists (admin_payload self command args).
  rewrite _admin_command_posts, posts_app. split; [done|].
  unfold admin_payload. repeat split; by simplify_map_eq.
Qed.

(** X7: each of the nine named admin operations sends exactly one POST to
    the admin URL with a timeout of 60 seconds, whatever the server does;
    the payload names the command, carries the stored admin key, and holds
    the arguments of the operation (none for the operations without
    parameters). *)
Theorem admin_operations_send_key_and_command (env : Env)
    (self : ImageEnhancerSDK) (t : list event) :
  let sends (m : M value) (command : string) (args : Dict) :=
    exists payload,
      posts (snd (run m t)) = posts t ++ [(admin_url self, payload, 60)]
      /\ payload !! "command" = Some (VStr command)
      /\ payload !! "args" = Some (VDict args)
      /\ payload !! "adminKey" = Some (VStr (admin_key self)) in
  sends (get_system_status env self) "status" ∅
  /\ sends (get_health_check env self) "health" ∅
  /\ (forall level limit,
        sends (get_logs env self level limit) "logs"
          {[ "level" := VStr level; "limit" := VInt limit ]})
  /\ (forall time_range,
        sends (get_metrics env self time_range) "metrics"
          {[ "timeRange" := VStr time_range ]})
  /\ sends (test_apis env self) "test-apis" ∅
  /\ sends (clear_cache env self) "clear-cache" ∅
  /\ (forall image_id include_metadata,
        sends (debug_image env self image_id include_metadata) "debug-image"
          {[ "imageId" := VStr image_id;
             "includeMetadata" := VBool include_metadata ]})
  /\ (forall data_type format,
        sends (export_data env self data_type format) "export-data"
          {[ "type" := VStr data_type; "format" := VStr format ]})
  /\ sends (get_system_info env self) "system-info" ∅.
Proof.
  simpl. repeat split; intros; apply _admin_command_request.
Qed.

(** X17: a base URL made of slashes only (the empty string included) is
    stored as the empty string, so that the request URLs are the bare
    paths. *)
Theorem slashes_only_base_url (environ : gmap string string) (k : nat)
    (key : option string) :
  let self := init environ (repeat_char "/" k) key in
  base_url self = EmptyString
  /\ enhance_url self = "/api/enhance"
  /\ classify_url self = "/api/classify"
  /\ admin_url self = "/api/admin".
Proof.
  simpl. unfold enhance_url, classify_url, admin_url, init. simpl.
  by rewrite rstrip_repeat_char.
Qed.

(** ** Results that are not containers *)


